(** * BIONARY_CHATBOT: retrieval and routing pipeline

    A shallow embedding of [retriever.py] and [query_pipeline.py].

    External collaborators (the sentence-transformer model, the PostgreSQL
    connection, the Gemini model, [json.loads], [textwrap.dedent], Python's
    [repr]) are not part of the repository; they appear here as fields of a
    [World] record or as section variables, one per call site of the source.
    Exceptions are explicit: a collaborator either answers or raises, and the
    [try]/[except] blocks of the source are written out as matches. *)

From Stdlib Require Import List String Ascii Bool Arith ZArith Lia Permutation.
From Stdlib Require DecimalString.
Set Warnings "-register-all".
Import ListNotations.
Local Open Scope string_scope.
Local Open Scope list_scope.

(** ** Python dictionaries, as far as [query_vector_db] uses them

    [combined_results_map] is an insertion-ordered dict from passage text to
    rank.  Assigning to an existing key replaces the value and keeps the key's
    position; assigning to a new key appends it. *)
Module PyDict.

Definition t := list (string * nat).

Definition keys (d : t) : list string := map fst d.

Fixpoint contains (k : string) (d : t) : bool :=
  match d with
  | [] => false
  | (k', _) :: d' => if String.eqb k k' then true else contains k d'
  end.

(** [d[k]]; the default is never reached on a key of [d]. *)
Fixpoint get (d : t) (k : string) : nat :=
  match d with
  | [] => 0
  | (k', v) :: d' => if String.eqb k k' then v else get d' k
  end.

(** [d[k] = v] *)
Fixpoint set (k : string) (v : nat) (d : t) : t :=
  match d with
  | [] => [(k, v)]
  | (k', v') :: d' =>
      if String.eqb k k' then (k', v) :: d' else (k', v') :: set k v d'
  end.

End PyDict.

(** ** [sorted(iterable, key=...)]

    Python's [sorted] is stable; insertion from the right, placing an element
    before the first one whose key is not smaller, gives that order. *)
Section Sorted.
Variable key : string -> nat.

Fixpoint insert_by (x : string) (l : list string) : list string :=
  match l with
  | [] => [x]
  | y :: l' => if Nat.leb (key x) (key y) then x :: l else y :: insert_by x l'
  end.

Fixpoint sorted_by (l : list string) : list string :=
  match l with
  | [] => []
  | x :: l' => insert_by x (sorted_by l')
  end.
End Sorted.

(** ** retriever.py: configuration *)

Definition MODEL_NAME : string := "BAAI/bge-base-en-v1.5".
Definition QUERY_PREFIX : string :=
  "Represent this sentence for searching relevant passages: ".
Definition TOP_K : nat := 5.

(** Rank given to keyword-only results (line 133). *)
Definition KEYWORD_ONLY_RANK : nat := 100.

Definition NO_RELEVANT_DOCUMENTS : string := "No relevant documents found.".
Definition MODEL_NOT_LOADED : string :=
  "Error: SentenceTransformer model is not loaded.".
Definition DB_CONNECTION_ERROR : string := "Database connection error.".

(** ** The rank map and the final ranking of [query_vector_db]

    A retrieval path either fetched its rows ([Some rows], column 0 of each
    row, the only column the code reads) or raised before the loop over the
    rows ([None]), in which case the map is left as it was. *)

(** [for i, row in enumerate(rows): combined_results_map[row[0]] = i] *)
Fixpoint add_vector_rows (i : nat) (rows : list string) (d : PyDict.t)
  : PyDict.t :=
  match rows with
  | [] => d
  | r :: rows' => add_vector_rows (S i) rows' (PyDict.set r i d)
  end.

(** [for row in rows: if row[0] not in combined_results_map: ... = 100] *)
Fixpoint add_keyword_rows (rows : list string) (d : PyDict.t) : PyDict.t :=
  match rows with
  | [] => d
  | r :: rows' =>
      add_keyword_rows rows'
        (if PyDict.contains r d then d else PyDict.set r KEYWORD_ONLY_RANK d)
  end.

Definition after_vector (vec : option (list string)) : PyDict.t :=
  match vec with
  | Some rows => add_vector_rows 0 rows []
  | None => []
  end.

Definition after_keyword (kw : option (list string)) (d : PyDict.t)
  : PyDict.t :=
  match kw with
  | Some rows => add_keyword_rows rows d
  | None => d
  end.

(** Step 3 of [query_vector_db]: sort the keys by rank, return the sentinel
    when there is none, else the first ten. *)
Definition rank_results (d : PyDict.t) : list string :=
  let ranked_results := sorted_by (PyDict.get d) (PyDict.keys d) in
  match ranked_results with
  | [] => [NO_RELEVANT_DOCUMENTS]
  | _ => firstn 10 ranked_results
  end.

Definition fuse (vec kw : option (list string)) : list string :=
  rank_results (after_keyword kw (after_vector vec)).

(** ** Python values

    The values [json.loads] can produce, and so the values the pipeline may
    pass as [query] to the retriever.  A float is kept as its literal together
    with whether it is non-zero, which is all the pipeline looks at. *)
Inductive PyVal : Type :=
| VNone
| VBool (b : bool)
| VInt (z : Z)
| VFloat (literal : string) (nonzero : bool)
| VStr (s : string)
| VList (items : list PyVal)
| VDict (fields : list (string * PyVal)).

(** Python truthiness, as used by [if not query]. *)
Definition truthy (v : PyVal) : bool :=
  match v with
  | VNone => false
  | VBool b => b
  | VInt z => negb (Z.eqb z 0)
  | VFloat _ nz => nz
  | VStr s => negb (String.eqb s "")
  | VList items => match items with [] => false | _ => true end
  | VDict fields => match fields with [] => false | _ => true end
  end.

(** [v == s] for a string literal [s]: only a string equals a string. *)
Definition eq_str (v : PyVal) (s : string) : bool :=
  match v with
  | VStr s' => String.eqb s' s
  | _ => false
  end.

(** [d.get(k)] on a decoded JSON object. *)
Fixpoint dict_get (k : string) (d : list (string * PyVal)) : option PyVal :=
  match d with
  | [] => None
  | (k', v) :: d' => if String.eqb k k' then Some v else dict_get k d'
  end.

(** ** SQL texts of [query_vector_db] *)

Definition decimal (n : nat) : string :=
  DecimalString.NilZero.string_of_uint (Nat.to_uint n).

(** The f-string of lines 95-100: [{TOP_K}] is interpolated. *)
Definition vector_query : string :=
  ("
                SELECT text_chunk, embedding <-> %s AS distance
                FROM chunks
                ORDER BY distance
                LIMIT " ++ decimal TOP_K ++ ";
                ")%string.

(** The plain string literal of lines 121-127: no interpolation. *)
Definition keyword_query : string :=
  "
                SELECT text_chunk, ts_rank_cd(to_tsvector('english', text_chunk), query) AS rank
                FROM chunks, websearch_to_tsquery('english', %s) query
                WHERE query @@ to_tsvector('english', text_chunk)
                ORDER BY rank DESC
                LIMIT {TOP_K};
            ".

(** [needle in haystack] *)
Fixpoint is_prefix (p s : string) : bool :=
  match p, s with
  | EmptyString, _ => true
  | String a p', String b s' => if Ascii.eqb a b then is_prefix p' s' else false
  | String _ _, EmptyString => false
  end.

Fixpoint contains_str (needle haystack : string) : bool :=
  if is_prefix needle haystack then true
  else match haystack with
       | EmptyString => false
       | String _ rest => contains_str needle rest
       end.

(** ** What a call of the retriever does to the outside *)
Inductive Event : Type :=
| EvConnect                       (* _connect_to_db() *)
| EvEncode (text : string)        (* model.encode(text) *)
| EvExecute (sql : PyVal)         (* cur.execute(sql, ...) *)
| EvRollback                      (* conn.rollback() *)
| EvClose                         (* conn.close() *)
| EvGenerate (prompt : string).   (* generation_model.generate_content *)

(** A cell of a row of the relational query, and a row. *)
Inductive Cell : Type :=
| CNull
| CInt (z : Z)
| CText (s : string).

Definition Tuple : Type := list Cell.

(** Outcome of [cur.execute] followed by [cur.description]/[cur.fetchall]. *)
Inductive ExecResult : Type :=
| ExecRaises (message : string)       (* the exception, as [str(e)] *)
| ExecNoResultSet                     (* [cur.description] is None *)
| ExecRows (rows : list Tuple).

(** ** Calls that may raise, and the trace they leave

    A computation takes the trace so far and either returns or raises (the
    exception kept as its message, [str(e)]), with the extended trace. *)
Inductive Outcome (A : Type) : Type :=
| Returns (a : A)
| Raises (message : string).
Arguments Returns {A} a.
Arguments Raises {A} message.

Definition Trace : Type := list Event.
Definition M (A : Type) : Type := Trace -> Outcome A * Trace.

Definition ret {A} (a : A) : M A := fun tr => (Returns a, tr).
Definition raise {A} (message : string) : M A := fun tr => (Raises message, tr).
Definition bind {A B} (m : M A) (k : A -> M B) : M B :=
  fun tr =>
    match m tr with
    | (Returns a, tr') => k a tr'
    | (Raises e, tr') => (Raises e, tr')
    end.
Definition emit (ev : Event) : M unit := fun tr => (Returns tt, tr ++ [ev]).
Definition lift {A} (o : Outcome A) : M A := fun tr => (o, tr).

(** [try: body / except Exception as e: handler(e)] *)
Definition try_except {A} (body : M A) (handler : string -> M A) : M A :=
  fun tr =>
    match body tr with
    | (Returns a, tr') => (Returns a, tr')
    | (Raises e, tr') => handler e tr'
    end.

(** [try: body / finally: final] *)
Definition try_finally {A} (body : M A) (final : M unit) : M A :=
  fun tr =>
    match body tr with
    | (o, tr') =>
        match final tr' with
        | (Returns _, tr'') => (o, tr'')
        | (Raises e, tr'') => (Raises e, tr'')
        end
    end.

Declare Scope monad_scope.
Delimit Scope monad_scope with monad.
Notation "x <- m ;; k" := (bind m (fun x => k))
  (at level 61, m at next level, right associativity) : monad_scope.
Notation "m ;;; k" := (bind m (fun _ => k))
  (at level 61, right associativity) : monad_scope.
Local Open Scope monad_scope.

(** ** The world of the retriever

    One field per call into a collaborator.  [model] is the module-level
    variable of lines 16-37: [None] when loading failed or the dimension was
    wrong.  Rows of the two searches are given by their column 0.
    [conn.rollback()] and [conn.close()] are taken not to raise. *)
Section Retriever.
Variable Embedding : Type.

Record World : Type := {
  model : option (string -> Outcome Embedding);
  (* does the n-th [_connect_to_db()] of a call yield a connection *)
  connect : nat -> bool;
  (* register_vector, cur.execute, cur.fetchall of the vector search *)
  vector_execute : string -> Embedding -> Outcome (list string);
  (* [conn.closed] at line 115 *)
  closed_before_keyword : bool;
  (* cur.execute, cur.fetchall of the keyword search *)
  keyword_execute : string -> PyVal -> Outcome (list string);
  (* [conn.closed] at line 140 *)
  closed_at_end : bool;
  (* cur.execute, cur.description, cur.fetchall of query_relational_db *)
  relational_execute : PyVal -> ExecResult
}.

Variable w : World.

(** Lines 39-50: every failure is caught and gives [None] ([false]). *)
Definition _connect_to_db (attempt : nat) : M bool :=
  emit EvConnect ;;; ret (connect w attempt).

(** [QUERY_PREFIX + query_text]: a TypeError unless [query_text] is a str. *)
Definition add_prefix (query_text : PyVal) : M string :=
  match query_text with
  | VStr s => ret (QUERY_PREFIX ++ s)%string
  | _ => raise "can only concatenate str to str"
  end.

(** Lines 89-110. *)
Definition vector_search (encode : string -> Outcome Embedding)
    (query_text : PyVal) (combined_results_map : PyDict.t) : M PyDict.t :=
  try_except
    (query_with_prefix <- add_prefix query_text ;;
     emit (EvEncode query_with_prefix) ;;;
     query_embedding <- lift (encode query_with_prefix) ;;
     emit (EvExecute (VStr vector_query)) ;;;
     rows <- lift (vector_execute w vector_query query_embedding) ;;
     ret (add_vector_rows 0 rows combined_results_map))
    (fun e => emit EvRollback ;;; ret combined_results_map).

(** Lines 114-141.  [conn] is [false] when the reconnect failed, that is
    when the variable [conn] of the source is None. *)
Definition keyword_search (query_text : PyVal)
    (combined_results_map : PyDict.t) : M PyDict.t :=
  conn <- (if closed_before_keyword w then _connect_to_db 1 else ret true) ;;
  try_finally
    (try_except
       ((if conn then ret tt
         else raise "Reconnect failed for keyword search") ;;;
        emit (EvExecute (VStr keyword_query)) ;;;
        rows <- lift (keyword_execute w keyword_query query_text) ;;
        ret (add_keyword_rows rows combined_results_map))
       (fun e => ret combined_results_map))
    (if conn && negb (closed_at_end w) then emit EvClose else ret tt).

(** Lines 73-154. *)
Definition query_vector_db (query_text : PyVal) : M (list string) :=
  match model w with
  | None => ret [MODEL_NOT_LOADED]
  | Some encode =>
      conn <- _connect_to_db 0 ;;
      if negb conn then ret [DB_CONNECTION_ERROR]
      else
        combined_results_map <- vector_search encode query_text [] ;;
        combined_results_map <- keyword_search query_text combined_results_map ;;
        ret (rank_results combined_results_map)
  end.

(** Lines 53-70. *)
Definition query_relational_db (sql_query : PyVal) : M (list Tuple) :=
  conn <- _connect_to_db 0 ;;
  if negb conn then ret [[CText DB_CONNECTION_ERROR]]
  else
    results <-
      try_finally
        (emit (EvExecute sql_query) ;;;
         match relational_execute w sql_query with
         | ExecRows rows => ret rows
         | ExecNoResultSet => ret []
         | ExecRaises e =>
             emit EvRollback ;;; ret [[CText ("SQL error: " ++ e)%string]]
         end)
        (emit EvClose) ;;
    match results with
    | [] => ret [[CText "No results found for that query."]]
    | _ => ret results
    end.

(** What the two searches fetch in a call that got its first connection:
    [None] when the path raised. *)
Definition vector_rows (query_text : PyVal) : option (list string) :=
  match model w, query_text with
  | Some encode, VStr s =>
      match encode (QUERY_PREFIX ++ s)%string with
      | Returns e =>
          match vector_execute w vector_query e with
          | Returns rows => Some rows
          | Raises _ => None
          end
      | Raises _ => None
      end
  | _, _ => None
  end.

Definition keyword_rows (query_text : PyVal) : option (list string) :=
  if closed_before_keyword w && negb (connect w 1) then None
  else match keyword_execute w keyword_query query_text with
       | Returns rows => Some rows
       | Raises _ => None
       end.

End Retriever.

Arguments model {Embedding} _.
Arguments connect {Embedding} _ _.
Arguments vector_execute {Embedding} _ _ _.
Arguments closed_before_keyword {Embedding} _.
Arguments keyword_execute {Embedding} _ _ _.
Arguments closed_at_end {Embedding} _.
Arguments relational_execute {Embedding} _ _.
Arguments query_vector_db {Embedding} w query_text _.
Arguments query_relational_db {Embedding} w sql_query _.
Arguments vector_rows {Embedding} w query_text.
Arguments keyword_rows {Embedding} w query_text.

(** ** query_pipeline.py *)

Definition dq : string := String "034"%char EmptyString.
Definition nl : string := String "010"%char EmptyString.

(** The literal parts of the two f-strings of [handle_user_query], in order;
    the interpolated expressions go between them. *)
Definition PARSING_PROMPT_1 : string :=
  ("
    You are a query-parsing agent for a university club's knowledge base.
    Your job is to convert a user's question into a JSON object, choosing the best tool.

    You have two tools:
    1. Relational DB (PostgreSQL) for structured facts (who, when, how many, list all).
    2. Vector DB (pgvector) for conceptual/descriptive questions (what, tell me about, topic search).

    --- DATABASE SCHEMA ---

    Table: 'events' (Structured Facts)
    Columns: [
        event_id (TEXT, PK, e.g., 'Circuit Craft'),
        name_of_event (TEXT),
        club_name (TEXT, e.g., 'BIONARY'),
        event_domain (TEXT, e.g., 'Hardware / IoT', 'AI / ML', 'Design / 3D Modeling', 'Hackathon / AI / Robotics'),
        date_of_event (DATE, format YYYY-MM-DD),
        time_of_event (TEXT),
        faculty_coordinators (TEXT),
        student_coordinators (TEXT),
        venue (TEXT),
        mode_of_event (TEXT, e.g., 'Offline', 'Online'),
        registration_fee (TEXT),
        speakers (TEXT),
        perks (TEXT)
    ]

    Table: 'chunks' (Semantic Search)
    Columns: [
        text_chunk (TEXT, e.g., 'A beginner friendly workshop...'),
        embedding (VECTOR)
    ]
    (Contains event descriptions, highlights, perks, club, and domain)

    --- JSON OUTPUT FORMAT ---
    {"
  ++ dq
  ++ "intent"
  ++ dq
  ++ ": "
  ++ dq
  ++ "semantic"
  ++ dq
  ++ ", "
  ++ dq
  ++ "query"
  ++ dq
  ++ ": "
  ++ dq
  ++ "text to search for"
  ++ dq
  ++ "}
    OR
    {"
  ++ dq
  ++ "intent"
  ++ dq
  ++ ": "
  ++ dq
  ++ "structured"
  ++ dq
  ++ ", "
  ++ dq
  ++ "query"
  ++ dq
  ++ ": "
  ++ dq
  ++ "SELECT ... FROM events WHERE ..."
  ++ dq
  ++ "}

    --- RULES ---

    1.  **Use SQL for Departments/Domains:** To find events by department (e.g., "
  ++ dq
  ++ "robotics"
  ++ dq
  ++ ", "
  ++ dq
  ++ "AI"
  ++ dq
  ++ ", "
  ++ dq
  ++ "hardware"
  ++ dq
  ++ "), you **MUST** query the `event_domain` column.
        (e.g., `event_domain ILIKE '%robotics%'`)

    2.  **Prioritize SQL for Facts:** You **MUST** use "
  ++ dq
  ++ "intent: structured"
  ++ dq
  ++ " for any other specific facts:
        - "
  ++ dq
  ++ "Who"
  ++ dq
  ++ " (e.g., 'speakers', 'faculty_coordinators')
        - "
  ++ dq
  ++ "When"
  ++ dq
  ++ " (e.g., 'date_of_event')
        - "
  ++ dq
  ++ "How many"
  ++ dq
  ++ " (e.g., `COUNT(event_id)`)
        - "
  ++ dq
  ++ "List all"
  ++ dq
  ++ " (e.g., `SELECT name_of_event FROM events`)

    3.  **Use Semantic Search:** Use "
  ++ dq
  ++ "intent: semantic"
  ++ dq
  ++ " ONLY for conceptual or descriptive questions:
        - "
  ++ dq
  ++ "What is RAG?"
  ++ dq
  ++ "
        - "
  ++ dq
  ++ "Tell me about..."
  ++ dq
  ++ "
        - "
  ++ dq
  ++ "What did the Arduino workshop cover?"
  ++ dq
  ++ "

    4.  **SQL Syntax:**
        - Use `ILIKE` for case-insensitive string matching.
        - Use `EXTRACT(YEAR FROM date_of_event)` to get the year.
        - Assume 'this year' is ")%string.

Definition PARSING_PROMPT_2 : string :=
  ", 'last year' is ".

Definition PARSING_PROMPT_3 : string :=
  (".

    ---

    User Question: "
  ++ dq)%string.

Definition PARSING_PROMPT_4 : string :=
  (dq
  ++ "
    JSON Output:
    ")%string.

Definition FINAL_PROMPT_1 : string :=
  "
    You are the 'Club Knowledge Search Agent'. Your job is to synthesize a final answer
    from the provided context. You MUST answer the user's question.

    You are given the user's question, the retrieved context, and (if applicable)
    the SQL query that was run to get that context.

    ---
    User Question:
    ".

Definition FINAL_PROMPT_2 : string :=
  "
    ---
    Context:
    ".

Definition FINAL_PROMPT_3 : string :=
  "
    ---
    SQL Query (if any):
    ".

Definition FINAL_PROMPT_4 : string :=
  ("
    ---

    INSTRUCTIONS:
    1.  **If the Context is a Database Result (e.g., `Database query returned: [(1,)]`):**
        * Look at the 'SQL Query' and the 'Context' *together*.
        * If the query was `SELECT COUNT...` and the result is `[(1,)]`, the answer is 1.
        * If the query was `SELECT COUNT...` and the result is `[(0,)]`, the answer is 0.
        * Synthesize the raw SQL result into a natural, human-readable sentence.
        * **Example:** If query was `SELECT COUNT...` and result is `[(1,)]` and question was "
  ++ dq
  ++ "How many robotics events..."
  ++ dq
  ++ ", answer "
  ++ dq
  ++ "There was 1 robotics event."
  ++ dq
  ++ "
        * **Example:** If query was `SELECT speakers...` and result is `[('Dr. A',), ('Dr. B',)]`, answer "
  ++ dq
  ++ "The speakers were Dr. A and Dr. B."
  ++ dq
  ++ "
        * If the result is `[('No results found for that query.',)]` or `[]` or `[('',)]`, state "
  ++ dq
  ++ "I do not have that information in my records."
  ++ dq
  ++ "

    2.  **If the Context is Semantic Text (from vector search):**
        * Read the text chunks to find the answer.
        * **Be helpful:** If the user asks about a specific topic (e.g., "
  ++ dq
  ++ "RAG"
  ++ dq
  ++ "), and the context shows an event *mentions* that topic (even in 'perks' or 'highlights'), you **MUST** state that you found a mention and present the details (e.g., "
  ++ dq
  ++ "Yes, the 'From Voice to Notes' event mentioned RAG in its perks..."
  ++ dq
  ++ ").
        * If the answer is not in the text, state "
  ++ dq
  ++ "I do not have that information in my records."
  ++ dq
  ++ "

    3.  **Do not make up information.** Answer ONLY from the context.

    Final Answer:
    ")%string.

(** [re.search(r"\{.*\}", text, re.DOTALL)]: the leftmost start wins and
    [.*] is greedy; with DOTALL it crosses newlines.  [upto_last_close s] is
    the longest prefix of [s] that ends in a closing brace. *)
Fixpoint upto_last_close (s : string) : option string :=
  match s with
  | EmptyString => None
  | String c rest =>
      match upto_last_close rest with
      | Some m => Some (String c m)
      | None => if Ascii.eqb c "}" then Some (String c EmptyString) else None
      end
  end.

Fixpoint re_search_braces (text : string) : option string :=
  match text with
  | EmptyString => None
  | String c rest =>
      if Ascii.eqb c "{" then
        match upto_last_close rest with
        | Some m => Some (String c m)
        | None => re_search_braces rest
        end
      else re_search_braces rest
  end.

(** The response object of the Gemini client: [.text] raises when the
    response holds no text; [.prompt_feedback.block_reason] is falsy
    ([None]) or the reason, as the f-string of line 217 prints it. *)
Record Response : Type := {
  text : Outcome string;
  block_reason : option string
}.

(** [generation_model.generate_content], at its two call sites. *)
Record Gemini : Type := {
  generate_parsing : string -> Outcome Response;
  generate_final : string -> Outcome Response
}.

Definition UNDERSTANDING_APOLOGY : string :=
  "Sorry, I had trouble understanding.".
Definition FORMULATING_APOLOGY : string :=
  "Sorry, I had trouble formulating a response.".
Definition BLOCKED_PREFIX : string :=
  "Sorry, the response was blocked. Reason: ".

Section Pipeline.
Variable Embedding : Type.

(** [json.loads] on a string that starts with an opening brace: the decoded
    object, or JSONDecodeError raised with its message. *)
Variable json_loads : string -> Outcome (list (string * PyVal)).
(** [textwrap.dedent] *)
Variable dedent : string -> string.
(** [str] of a list of tuples, as the f-string of line 166 prints it. *)
Variable str_rows : list Tuple -> string.
(** [str] of a value that is neither a str, None nor a bool. *)
Variable str_val : PyVal -> string.

Variable w : World Embedding.
Variable g : Gemini.

Definition format_val (v : PyVal) : string :=
  match v with
  | VStr s => s
  | VNone => "None"
  | VBool true => "True"
  | VBool false => "False"
  | _ => str_val v
  end.

(** [d.get(k)]: None when the key is missing. *)
Definition get (d : list (string * PyVal)) (k : string) : PyVal :=
  match dict_get k d with
  | Some v => v
  | None => VNone
  end.

(** Lines 60-66. *)
Definition _parse_json_from_response (text : string)
  : Outcome (list (string * PyVal)) :=
  match re_search_braces text with
  | None =>
      Returns [("intent", VStr "error"); ("query", VStr "Could not parse.")]
  | Some json_str =>
      match json_loads json_str with
      | Returns d => Returns d
      | Raises e =>
          Returns [("intent", VStr "error"); ("query", VStr "Invalid JSON.")]
      end
  end.

Definition current_year : nat := 2025.

Definition parsing_prompt (user_question : string) : string :=
  dedent (PARSING_PROMPT_1 ++ decimal current_year
          ++ PARSING_PROMPT_2 ++ decimal (current_year - 1)
          ++ PARSING_PROMPT_3 ++ user_question
          ++ PARSING_PROMPT_4)%string.

Definition final_prompt (user_question context : string)
    (sql_query_for_prompt : PyVal) : string :=
  dedent (FINAL_PROMPT_1 ++ user_question
          ++ FINAL_PROMPT_2 ++ context
          ++ FINAL_PROMPT_3
          ++ (if truthy sql_query_for_prompt
              then format_val sql_query_for_prompt else "N/A")
          ++ FINAL_PROMPT_4)%string.

(** Lines 150-167: the context and [sql_query_for_prompt]. *)
Definition retrieve (parsed_intent : list (string * PyVal))
  : M (string * PyVal) :=
  let intent := get parsed_intent "intent" in
  let query := get parsed_intent "query" in
  if eq_str intent "semantic" then
    if negb (truthy query)
    then ret ("Parser error: Missing query text for semantic search.", VNone)
    else context_docs <- query_vector_db w query ;;
         ret (String.concat nl context_docs, VNone)
  else if eq_str intent "structured" then
    if negb (truthy query)
    then ret ("Parser error: Missing SQL query for structured search.", VNone)
    else sql_results <- query_relational_db w query ;;
         ret (("Database query returned: " ++ str_rows sql_results)%string,
              query)
  else ret (("Query parser failed or returned unknown intent: "
             ++ format_val intent)%string, VNone).

(** Lines 213-219. *)
Definition synthesize (prompt : string) : M string :=
  try_except
    (emit (EvGenerate prompt) ;;;
     final_response <- lift (generate_final g prompt) ;;
     match block_reason final_response with
     | Some reason => ret (BLOCKED_PREFIX ++ reason)%string
     | None => lift (text final_response)
     end)
    (fun e => ret FORMULATING_APOLOGY).

(** Lines 68-219.  The first [try] either leaves the parsed intent or
    returns the apology at once. *)
Definition handle_user_query (user_question : string) : M string :=
  parsed <-
    try_except
      (emit (EvGenerate (parsing_prompt user_question)) ;;;
       parser_response <-
         lift (generate_parsing g (parsing_prompt user_question)) ;;
       response_text <- lift (text parser_response) ;;
       parsed_intent <- lift (_parse_json_from_response response_text) ;;
       ret (inl parsed_intent))
      (fun e => ret (inr UNDERSTANDING_APOLOGY)) ;;
  match parsed with
  | inr apology => ret apology
  | inl parsed_intent =>
      retrieved <- retrieve parsed_intent ;;
      synthesize
        (final_prompt user_question (fst retrieved) (snd retrieved))
  end.

End Pipeline.

Arguments retrieve {Embedding} str_rows str_val w parsed_intent _.
Arguments handle_user_query {Embedding} json_loads dedent str_rows str_val w g
  user_question _.

(** ** Definitions that follow the specification's words *)

(** "Deduplicated in their order": every text once, at its first place. *)
Fixpoint uniq_from (seen rows : list string) : list string :=
  match rows with
  | [] => []
  | r :: rows' =>
      if existsb (String.eqb r) seen then uniq_from seen rows'
      else r :: uniq_from (seen ++ [r]) rows'
  end.

Definition dedup (rows : list string) : list string := uniq_from [] rows.

(** "The first balanced object-like substring": from the first opening brace
    whose matching closing brace exists, up to that closing brace.
    [balanced_rest depth s] reads [s] after an opening brace, [depth] further
    braces being open. *)
Fixpoint balanced_rest (depth : nat) (s : string) : option string :=
  match s with
  | EmptyString => None
  | String c rest =>
      if Ascii.eqb c "}" then
        match depth with
        | 0 => Some (String c EmptyString)
        | S depth' => option_map (String c) (balanced_rest depth' rest)
        end
      else if Ascii.eqb c "{" then
        option_map (String c) (balanced_rest (S depth) rest)
      else option_map (String c) (balanced_rest depth rest)
  end.

Fixpoint spec_first_balanced_object (text : string) : option string :=
  match text with
  | EmptyString => None
  | String c rest =>
      if Ascii.eqb c "{" then
        match balanced_rest 0 rest with
        | Some m => Some (String c m)
        | None => spec_first_balanced_object rest
        end
      else spec_first_balanced_object rest
  end.

(** What [synthesize] answers to a prompt: the text of the model, the block
    message, or the apology when the call or [.text] raises. *)
Definition final_answer (g : Gemini) (prompt : string) : string :=
  match generate_final g prompt with
  | Raises _ => FORMULATING_APOLOGY
  | Returns final_response =>
      match block_reason final_response with
      | Some reason => (BLOCKED_PREFIX ++ reason)%string
      | None =>
          match text final_response with
          | Returns t => t
          | Raises _ => FORMULATING_APOLOGY
          end
      end
  end.

(** The parsed intent [_parse_json_from_response] falls back to. *)
Definition error_intent (message : string) : list (string * PyVal) :=
  [("intent", VStr "error"); ("query", VStr message)].

(** Does the character occur in the string. *)
Fixpoint has_char (c : ascii) (s : string) : bool :=
  match s with
  | EmptyString => false
  | String c' s' => if Ascii.eqb c' c then true else has_char c s'
  end.

(** ** Sample worlds, for running the model on concrete inputs *)

(** The model failed to load. *)
Definition unloaded_world : World unit :=
  {| model := None;
     connect := fun _ => true;
     vector_execute := fun _ _ => Returns ["A"];
     closed_before_keyword := false;
     keyword_execute := fun _ _ => Returns ["B"];
     closed_at_end := false;
     relational_execute := fun _ => ExecRows [[CInt 1]] |}.

(** [{"intent":"semantic","query":"rag"}] *)
Definition sample_semantic_json : string :=
  ("{" ++ dq ++ "intent" ++ dq ++ ":" ++ dq ++ "semantic" ++ dq ++ ","
   ++ dq ++ "query" ++ dq ++ ":" ++ dq ++ "rag" ++ dq ++ "}")%string.

(** [{"intent":"structured","query":"SELECT 1"}] *)
Definition sample_structured_json : string :=
  ("{" ++ dq ++ "intent" ++ dq ++ ":" ++ dq ++ "structured" ++ dq ++ ","
   ++ dq ++ "query" ++ dq ++ ":" ++ dq ++ "SELECT 1" ++ dq ++ "}")%string.

(** [json.loads] on the two objects above; on the other strings the samples
    use it raises, as Python does. *)
Definition sample_json_loads (s : string)
  : Outcome (list (string * PyVal)) :=
  if String.eqb s sample_semantic_json
  then Returns [("intent", VStr "semantic"); ("query", VStr "rag")]
  else if String.eqb s sample_structured_json
  then Returns [("intent", VStr "structured"); ("query", VStr "SELECT 1")]
  else Raises "Extra data".

(** A model whose first answer holds [parsing_text] and whose second answer
    is [answer], not blocked. *)
Definition sample_gemini (parsing_text answer : string) : Gemini :=
  {| generate_parsing := fun _ =>
       Returns {| text := Returns parsing_text; block_reason := None |};
     generate_final := fun _ =>
       Returns {| text := Returns answer; block_reason := None |} |}.

(** A model whose second answer is blocked. *)
Definition blocked_gemini (parsing_text reason : string) : Gemini :=
  {| generate_parsing := fun _ =>
       Returns {| text := Returns parsing_text; block_reason := None |};
     generate_final := fun _ =>
       Returns {| text := Raises "no text"; block_reason := Some reason |} |}.

(** Stand-ins for [textwrap.dedent] and [str] in the samples. *)
Definition sample_dedent (s : string) : string := s.
Definition sample_str_rows (rows : list Tuple) : string := "[(1,)]".
Definition sample_str_val (v : PyVal) : string := "?".

(** A loaded model, a database that connects, and the two searches answering
    [vec] and [kw] whatever the phrase. *)
Definition sample_world (vec kw : Outcome (list string)) : World unit :=
  {| model := Some (fun _ => Returns tt);
     connect := fun _ => true;
     vector_execute := fun _ _ => vec;
     closed_before_keyword := false;
     keyword_execute := fun _ _ => kw;
     closed_at_end := false;
     relational_execute := fun _ => ExecRows [[CInt 1]] |}.

(** The pipeline run on the samples, from the empty trace. *)
Definition sample_db : World unit :=
  sample_world (Returns ["A"]) (Returns ["B"]).

Definition sample_run (g : Gemini) (user_question : string)
  : Outcome string * Trace :=
  handle_user_query sample_json_loads sample_dedent sample_str_rows
    sample_str_val sample_db g user_question [].

(** ** Loading the model (retriever.py, lines 16-37)

    The two constructor calls are given by their outcomes; the second is
    looked at only when the first raised.  The result is the module variable
    [model]: [None] when both calls raised, when the dimension could not be
    read, or when it is not 768. *)
Section ModelLoading.
Variable Transformer : Type.
Variable get_sentence_embedding_dimension : Transformer -> Outcome nat.

Definition load_model (with_remote_code without_remote_code : Outcome Transformer)
  : option Transformer :=
  let loaded :=
    match with_remote_code with
    | Returns m => Returns m
    | Raises _ => without_remote_code
    end in
  match loaded with
  | Raises _ => None
  | Returns m =>
      match get_sentence_embedding_dimension m with
      | Returns actual_dimension =>
          if negb (Nat.eqb actual_dimension 768) then None else Some m
      | Raises _ => None
      end
  end.
End ModelLoading.

(** ** Kinds of events, for statements about traces *)

Definition is_close (ev : Event) : bool :=
  match ev with EvClose => true | _ => false end.

Definition is_rollback (ev : Event) : bool :=
  match ev with EvRollback => true | _ => false end.

Definition is_generate (ev : Event) : bool :=
  match ev with EvGenerate _ => true | _ => false end.

(** An event on the database connection. *)
Definition is_db (ev : Event) : bool :=
  match ev with
  | EvConnect | EvExecute _ | EvRollback | EvClose => true
  | _ => false
  end.

(** The model is loaded but the database does not connect. *)
Definition disconnected_world : World unit :=
  {| model := Some (fun _ => Returns tt);
     connect := fun _ => false;
     vector_execute := fun _ _ => Returns ["A"];
     closed_before_keyword := false;
     keyword_execute := fun _ _ => Returns ["B"];
     closed_at_end := false;
     relational_execute := fun _ => ExecRows [[CInt 1]] |}.

(** ** The two front ends

    The interactive loop of query_pipeline.py (lines 222-241) and the chat
    page app.py.  [input()] either gives a line, or is interrupted from the
    keyboard, or raises something else (end of input for one). *)
Inductive Input : Type :=
| Line (user_input : string)
| KeyboardInterrupt
| InputRaises (message : string).

(** Is the loop still at [input()], or has it left by [break]. *)
Inductive LoopState : Type :=
| Running
| Stopped.

(** A record of the chat transcript of app.py. *)
Record Message : Type := {
  role : string;
  content : string
}.

(** The warning sign and its variation selector, in UTF-8. *)
Definition WARNING_SIGN : string :=
  String "226" (String "154" (String "160"
    (String "239" (String "184" (String "143" EmptyString))))).

Section FrontEnds.
Variable Embedding : Type.
Variable json_loads : string -> Outcome (list (string * PyVal)).
Variable dedent : string -> string.
Variable str_rows : list Tuple -> string.
Variable str_val : PyVal -> string.
(** [str.lower] and [str.strip] *)
Variable lower : string -> string.
Variable strip : string -> string.
Variable w : World Embedding.
Variable g : Gemini.

(** [user_input.lower() in ["quit", "exit"]] *)
Definition is_exit_word (user_input : string) : bool :=
  String.eqb (lower user_input) "quit" || String.eqb (lower user_input) "exit".

(** [not user_input.strip()] *)
Definition is_blank (user_input : string) : bool :=
  String.eqb (strip user_input) "".

(** The loop over what [input()] gives, one element for each time round:
    what the loop itself prints, the trace, and whether it has stopped. *)
Fixpoint chat_loop (inputs : list Input) (tr : Trace)
  : list string * Trace * LoopState :=
  match inputs with
  | [] => ([], tr, Running)
  | KeyboardInterrupt :: _ => ([(nl ++ "Agent: Goodbye!")%string], tr, Stopped)
  | InputRaises e :: rest =>
      let '(printed, tr', state) := chat_loop rest tr in
      ((nl ++ "An unexpected error occurred: " ++ e)%string :: printed,
       tr', state)
  | Line user_input :: rest =>
      if is_exit_word user_input then (["Agent: Goodbye!"], tr, Stopped)
      else if is_blank user_input then chat_loop rest tr
      else
        match handle_user_query json_loads dedent str_rows str_val w g
                user_input tr with
        | (Returns answer, tr1) =>
            let '(printed, tr', state) := chat_loop rest tr1 in
            (("Agent: " ++ answer)%string :: printed, tr', state)
        | (Raises e, tr1) =>
            let '(printed, tr', state) := chat_loop rest tr1 in
            ((nl ++ "An unexpected error occurred: " ++ e)%string :: printed,
             tr', state)
        end
  end.

(** One run of the script of app.py: [prompt] is what [st.chat_input] gives,
    [None] when nothing was submitted. *)
Definition app_run (messages : list Message) (prompt : option string)
    (tr : Trace) : list Message * Trace :=
  match prompt with
  | None => (messages, tr)
  | Some p =>
      if String.eqb p "" then (messages, tr)
      else
        let messages := messages ++ [{| role := "user"; content := p |}] in
        let '(response, tr') :=
          match handle_user_query json_loads dedent str_rows str_val w g
                  p tr with
          | (Returns s, tr') => (s, tr')
          | (Raises e, tr') => ((WARNING_SIGN ++ " Error: " ++ e)%string, tr')
          end in
        (messages ++ [{| role := "assistant"; content := response |}], tr')
  end.

(** The session state over successive runs of the script. *)
Fixpoint app_session (messages : list Message) (prompts : list (option string))
    (tr : Trace) : list Message * Trace :=
  match prompts with
  | [] => (messages, tr)
  | p :: rest =>
      let '(messages', tr') := app_run messages p tr in
      app_session messages' rest tr'
  end.
End FrontEnds.

(** The prompts that were submitted: [st.chat_input] gave a non-empty
    string. *)
Definition submitted (prompts : list (option string)) : list string :=
  flat_map (fun p => match p with
                     | Some s => if String.eqb s "" then [] else [s]
                     | None => []
                     end) prompts.

(** A question and its answer, as the two records app.py appends. *)
Definition exchange (pa : string * string) : list Message :=
  [{| role := "user"; content := fst pa |};
   {| role := "assistant"; content := snd pa |}].

(** Stand-ins for [str.lower] and [str.strip] on the sample lines, which are
    in lower case and without blanks around them. *)
Definition sample_lower (s : string) : string := s.
Definition sample_strip (s : string) : string := s.

(** A model whose first call raises. *)
Definition failing_gemini : Gemini :=
  {| generate_parsing := fun _ => Raises "service unavailable";
     generate_final := fun _ =>
       Returns {| text := Returns "unused"; block_reason := None |} |}.

(** The loop run on the samples, from the empty trace. *)
Definition sample_loop (g : Gemini) (inputs : list Input)
  : list string * Trace * LoopState :=
  chat_loop unit sample_json_loads sample_dedent sample_str_rows
    sample_str_val sample_lower sample_strip sample_db g inputs [].

(** * Properties *)

(** ** The model on small inputs *)

Example fuse_abc :
  fuse (Some ["A"; "B"; "C"]) (Some ["B"; "D"; "E"])
  = ["A"; "B"; "C"; "D"; "E"].
Proof. reflexivity. Qed.

(** A text fetched twice by the vector search keeps its first place in the
    dict and takes its last rank. *)
Example fuse_repeated_vector_row :
  fuse (Some ["A"; "B"; "A"]) (Some ["C"]) = ["B"; "A"; "C"].
Proof. reflexivity. Qed.

Example fuse_nothing : fuse (Some []) None = ["No relevant documents found."].
Proof. reflexivity. Qed.

Example re_search_braces_greedy :
  re_search_braces "say {a} and {b} done" = Some "{a} and {b}".
Proof. reflexivity. Qed.

Example re_search_braces_no_close : re_search_braces "} then {" = None.
Proof. reflexivity. Qed.

Example spec_first_balanced_nested :
  spec_first_balanced_object "x {a {b} c} {d}" = Some "{a {b} c}".
Proof. reflexivity. Qed.

Example vector_query_limit :
  contains_str "LIMIT 5;" vector_query = true.
Proof. reflexivity. Qed.

(** ** The rank map *)
Module PyDictFacts.
Import PyDict.

Lemma contains_In k d : contains k d = true <-> In k (keys d).
Proof.
  induction d as [|[k' v'] d IH]; simpl.
  - split; [discriminate | tauto].
  - destruct (String.eqb_spec k k') as [->|Hne].
    + split; auto.
    + rewrite IH. split; [auto | intros [E|H]; [congruence | exact H]].
Qed.

Lemma contains_existsb k d : contains k d = existsb (String.eqb k) (keys d).
Proof.
  induction d as [|[k' v'] d IH]; simpl; [reflexivity|].
  rewrite IH. now destruct (String.eqb k k').
Qed.

Lemma keys_set k v d :
  keys (set k v d) = if contains k d then keys d else keys d ++ [k].
Proof.
  induction d as [|[k' v'] d IH]; simpl; [reflexivity|].
  destruct (String.eqb k k'); simpl; [reflexivity|].
  rewrite IH. now destruct (contains k d).
Qed.

Lemma get_set_same k v d : get (set k v d) k = v.
Proof.
  induction d as [|[k' v'] d IH]; simpl.
  - now rewrite String.eqb_refl.
  - destruct (String.eqb k k') eqn:E; simpl; rewrite E; auto.
Qed.

Lemma get_set_other k k' v d : k <> k' -> get (set k v d) k' = get d k'.
Proof.
  intros Hne. induction d as [|[k0 v0] d IH]; simpl.
  - destruct (String.eqb_spec k' k); [congruence | reflexivity].
  - destruct (String.eqb_spec k k0) as [->|Hk]; simpl.
    + destruct (String.eqb_spec k' k0); [congruence | reflexivity].
    + now rewrite IH.
Qed.

End PyDictFacts.

Section RankMapFacts.
Import PyDict PyDictFacts.

Lemma existsb_eqb_In r l : existsb (String.eqb r) l = true <-> In r l.
Proof.
  rewrite existsb_exists. split.
  - intros [x [Hx E]]. apply String.eqb_eq in E. now subst.
  - intros H. exists r. split; [exact H | apply String.eqb_refl].
Qed.

Lemma keys_add_vector_rows rows : forall i d,
  keys (add_vector_rows i rows d) = keys d ++ uniq_from (keys d) rows.
Proof.
  induction rows as [|r rows IH]; intros i d; simpl.
  - now rewrite app_nil_r.
  - rewrite IH, keys_set, <- contains_existsb.
    destruct (contains r d); [reflexivity|].
    now rewrite <- app_assoc.
Qed.

Lemma keys_add_keyword_rows rows : forall d,
  keys (add_keyword_rows rows d) = keys d ++ uniq_from (keys d) rows.
Proof.
  induction rows as [|r rows IH]; intros d; simpl.
  - now rewrite app_nil_r.
  - rewrite IH, <- contains_existsb.
    destruct (contains r d) eqn:E; [reflexivity|].
    rewrite keys_set, E. now rewrite <- app_assoc.
Qed.

Lemma uniq_from_In seen rows x :
  In x (uniq_from seen rows) <-> In x rows /\ ~ In x seen.
Proof.
  revert seen. induction rows as [|r rows IH]; intros seen; simpl.
  - tauto.
  - destruct (existsb (String.eqb r) seen) eqn:E.
    + apply existsb_eqb_In in E. rewrite IH.
      split; [tauto|]. intros [[->|H] Hn]; tauto.
    + assert (Hr : ~ In r seen).
      { intros H. apply existsb_eqb_In in H. congruence. }
      simpl. rewrite IH, in_app_iff. simpl.
      split.
      * intros [->|[H Hn]]; [tauto|]. split; [tauto|]. tauto.
      * intros [[->|H] Hn]; [tauto|].
        destruct (string_dec r x) as [->|Hne]; [tauto|]. right. tauto.
Qed.

Lemma uniq_from_NoDup rows : forall seen, NoDup (uniq_from seen rows).
Proof.
  induction rows as [|r rows IH]; intros seen; simpl; [constructor|].
  destruct (existsb (String.eqb r) seen); [apply IH|].
  constructor; [|apply IH].
  rewrite uniq_from_In, in_app_iff. simpl. tauto.
Qed.

Lemma NoDup_app_disjoint (l u : list string) :
  NoDup l -> NoDup u -> (forall x, In x u -> ~ In x l) -> NoDup (l ++ u).
Proof.
  intros Hl Hu Hd. induction Hl as [|a l Ha Hl IHl]; simpl; [exact Hu|].
  constructor.
  - rewrite in_app_iff. intros [H|H]; [tauto|].
    apply (Hd a H). now left.
  - apply IHl. intros x Hx Hin. apply (Hd x Hx). now right.
Qed.

Lemma NoDup_app_uniq seen rows :
  NoDup seen -> NoDup (seen ++ uniq_from seen rows).
Proof.
  intros H. apply NoDup_app_disjoint; [exact H | apply uniq_from_NoDup |].
  intros x Hx. now apply uniq_from_In in Hx.
Qed.

Lemma keys_after_vector_NoDup vec : NoDup (keys (after_vector vec)).
Proof.
  destruct vec as [rows|]; simpl; [|constructor].
  rewrite keys_add_vector_rows. simpl. apply uniq_from_NoDup.
Qed.

Lemma keys_after_keyword_NoDup kw d :
  NoDup (keys d) -> NoDup (keys (after_keyword kw d)).
Proof.
  intros H. destruct kw as [rows|]; simpl; [|exact H].
  rewrite keys_add_keyword_rows. now apply NoDup_app_uniq.
Qed.

End RankMapFacts.

(** ** [sorted] *)
Section SortedFacts.
Variable key : string -> nat.

Lemma insert_by_perm x l : Permutation (insert_by key x l) (x :: l).
Proof.
  induction l as [|y l IH]; simpl; [apply Permutation_refl|].
  destruct (Nat.leb (key x) (key y)); [apply Permutation_refl|].
  eapply Permutation_trans; [apply perm_skip, IH | apply perm_swap].
Qed.

Lemma sorted_by_perm l : Permutation (sorted_by key l) l.
Proof.
  induction l as [|x l IH]; simpl; [constructor|].
  eapply Permutation_trans; [apply insert_by_perm | now apply perm_skip].
Qed.

Lemma sorted_by_In x l : In x (sorted_by key l) <-> In x l.
Proof.
  split; apply Permutation_in;
    [apply sorted_by_perm | apply Permutation_sym, sorted_by_perm].
Qed.

Lemma sorted_by_length l : List.length (sorted_by key l) = List.length l.
Proof. apply Permutation_length, sorted_by_perm. Qed.

Lemma sorted_by_NoDup l : NoDup l -> NoDup (sorted_by key l).
Proof.
  intros H. eapply Permutation_NoDup; [|exact H].
  apply Permutation_sym, sorted_by_perm.
Qed.

(** Inserting in front of a block of equal keys that are not smaller. *)
Lemma insert_by_app x l1 l2 c :
  key x <= c -> Forall (fun y => key y = c) l2 ->
  insert_by key x (l1 ++ l2) = insert_by key x l1 ++ l2.
Proof.
  intros Hx Hl2. induction l1 as [|a l1 IH]; simpl.
  - destruct l2 as [|y l2]; [reflexivity|]. simpl.
    inversion Hl2 as [|? ? Hy _]; subst.
    destruct (Nat.leb_spec (key x) (key y)); [reflexivity | lia].
  - destruct (Nat.leb (key x) (key a)); [reflexivity|]. now rewrite IH.
Qed.

(** A list of equal keys is left as it is: the sort is stable. *)
Lemma sorted_by_constant l c :
  Forall (fun y => key y = c) l -> sorted_by key l = l.
Proof.
  induction 1 as [|y l Hy Hl IH]; simpl; [reflexivity|].
  rewrite IH. destruct l as [|z l]; [reflexivity|]. simpl.
  inversion Hl as [|? ? Hz _]; subst.
  destruct (Nat.leb_spec (key y) (key z)); [reflexivity | lia].
Qed.

Lemma sorted_by_app l1 l2 c :
  Forall (fun x => key x <= c) l1 -> Forall (fun y => key y = c) l2 ->
  sorted_by key (l1 ++ l2) = sorted_by key l1 ++ l2.
Proof.
  intros H1 H2. induction H1 as [|x l1 Hx H1 IH]; simpl.
  - now apply sorted_by_constant with c.
  - rewrite IH. now apply insert_by_app with c.
Qed.
End SortedFacts.

Section MoreRankMapFacts.
Import PyDict PyDictFacts.

Lemma get_add_vector_rows_other rows : forall i d k,
  ~ In k rows -> get (add_vector_rows i rows d) k = get d k.
Proof.
  induction rows as [|r rows IH]; intros i d k Hk; simpl; [reflexivity|].
  rewrite IH by (simpl in Hk; tauto).
  apply get_set_other. simpl in Hk. tauto.
Qed.

Lemma get_add_vector_rows_bound rows : forall i d k,
  In k rows -> get (add_vector_rows i rows d) k < i + List.length rows.
Proof.
  induction rows as [|r rows IH]; intros i d k Hk; simpl; [destruct Hk|].
  destruct (in_dec string_dec k rows) as [Hin|Hout].
  - specialize (IH (S i) (set r i d) k Hin). lia.
  - rewrite get_add_vector_rows_other by exact Hout.
    destruct Hk as [->|Hk]; [|tauto]. rewrite get_set_same. lia.
Qed.

Lemma get_add_keyword_rows_old rows : forall d k,
  In k (keys d) -> get (add_keyword_rows rows d) k = get d k.
Proof.
  induction rows as [|r rows IH]; intros d k Hk; simpl; [reflexivity|].
  destruct (contains r d) eqn:E; [now apply IH|].
  rewrite IH.
  - apply get_set_other. intros ->. apply contains_In in Hk. congruence.
  - rewrite keys_set, E, in_app_iff. now left.
Qed.

Lemma get_add_keyword_rows_new rows : forall d k,
  ~ In k (keys d) -> In k rows ->
  get (add_keyword_rows rows d) k = KEYWORD_ONLY_RANK.
Proof.
  induction rows as [|r rows IH]; intros d k Hk Hin; simpl; [destruct Hin|].
  destruct (contains r d) eqn:E.
  - apply IH; [exact Hk|]. destruct Hin as [->|Hin]; [|exact Hin].
    apply contains_In in E. tauto.
  - destruct (string_dec r k) as [->|Hne].
    + rewrite get_add_keyword_rows_old.
      * apply get_set_same.
      * rewrite keys_set, E, in_app_iff. right. now left.
    + apply IH.
      * rewrite keys_set, E, in_app_iff. simpl. tauto.
      * destruct Hin as [->|Hin]; [congruence | exact Hin].
Qed.

(** The ranking, before the sentinel and the cut: the vector texts sorted
    by their rank, then the keyword-only texts in keyword order. *)
Lemma sorted_keys_split V kw :
  List.length V <= S KEYWORD_ONLY_RANK ->
  let dv := add_vector_rows 0 V [] in
  let d := after_keyword kw dv in
  sorted_by (get d) (keys d)
  = sorted_by (get d) (dedup V)
    ++ uniq_from (dedup V) (match kw with Some K => K | None => [] end).
Proof.
  intros HV dv d.
  assert (Hkv : keys dv = dedup V).
  { unfold dv. now rewrite keys_add_vector_rows. }
  destruct kw as [K|]; simpl in d.
  - unfold d. rewrite keys_add_keyword_rows, Hkv.
    apply sorted_by_app with (c := KEYWORD_ONLY_RANK).
    + apply Forall_forall. intros x Hx.
      rewrite get_add_keyword_rows_old by now rewrite Hkv.
      apply uniq_from_In in Hx. destruct Hx as [Hx _].
      pose proof (get_add_vector_rows_bound V 0 [] x Hx). fold dv in H.
      unfold KEYWORD_ONLY_RANK in *. lia.
    + apply Forall_forall. intros y Hy.
      apply uniq_from_In in Hy. destruct Hy as [Hy Hn].
      apply get_add_keyword_rows_new; [now rewrite Hkv | exact Hy].
  - unfold d. rewrite Hkv. simpl. now rewrite app_nil_r.
Qed.

End MoreRankMapFacts.

(** ** [query_vector_db] *)
Section QueryVectorDb.
Variable Embedding : Type.
Variable w : World Embedding.

(** Once the model is loaded and the first connection is made, the answer
    is the ranking of what the two searches fetched. *)
Lemma query_vector_db_fuse query_text tr :
  model w <> None -> connect w 0 = true ->
  fst (query_vector_db w query_text tr)
  = Returns (fuse (vector_rows w query_text) (keyword_rows w query_text)).
Proof.
  intros Hm Hc. unfold query_vector_db, vector_rows, keyword_rows.
  destruct (model w) as [encode|]; [clear Hm | congruence].
  unfold bind at 1. unfold _connect_to_db, bind, emit, ret. rewrite Hc.
  simpl. unfold vector_search, keyword_search, try_except, try_finally,
    bind, _connect_to_db, emit, lift, ret, raise, add_prefix, fuse.
  destruct query_text; simpl;
    try (destruct (closed_before_keyword w); simpl;
         [destruct (connect w 1); simpl|];
         try (destruct (keyword_execute w keyword_query _); simpl);
         try (destruct (closed_at_end w); simpl); reflexivity).
  destruct (encode _) as [e|msg]; simpl;
    [destruct (vector_execute w vector_query e) as [rows|msg]; simpl|];
    (destruct (closed_before_keyword w); simpl;
     [destruct (connect w 1); simpl|];
     try (destruct (keyword_execute w keyword_query _); simpl);
     try (destruct (closed_at_end w); simpl); reflexivity).
Qed.

(** [query_vector_db] never raises. *)
Lemma query_vector_db_returns query_text tr :
  exists docs tr', query_vector_db w query_text tr = (Returns docs, tr').
Proof.
  unfold query_vector_db.
  destruct (model w) as [encode|]; [|eexists; eexists; reflexivity].
  unfold vector_search, keyword_search, try_except, try_finally,
    bind, _connect_to_db, emit, lift, ret, raise, add_prefix.
  destruct (connect w 0); simpl; [|eexists; eexists; reflexivity].
  destruct query_text; simpl;
    try (destruct (closed_before_keyword w); simpl;
         [destruct (connect w 1); simpl|];
         try (destruct (keyword_execute w keyword_query _); simpl);
         try (destruct (closed_at_end w); simpl);
         eexists; eexists; reflexivity).
  destruct (encode _) as [e|msg]; simpl;
    [destruct (vector_execute w vector_query e) as [rows|msg]; simpl|];
    (destruct (closed_before_keyword w); simpl;
     [destruct (connect w 1); simpl|];
     try (destruct (keyword_execute w keyword_query _); simpl);
     try (destruct (closed_at_end w); simpl);
     eexists; eexists; reflexivity).
Qed.
End QueryVectorDb.

Ltac decide_eqb :=
  repeat match goal with
         | |- context [String.eqb ?x ?x] => rewrite (String.eqb_refl x)
         | H : ?x <> ?y |- context [String.eqb ?x ?y] =>
             rewrite (proj2 (String.eqb_neq x y) H)
         | H : ?y <> ?x |- context [String.eqb ?x ?y] =>
             rewrite (proj2 (String.eqb_neq x y) (not_eq_sym H))
         end.

(** C1: when vector search returns the passages [A; B; C] and keyword search
    returns [B; D; E], the five passages being distinct, [query_vector_db]
    returns exactly [A; B; C; D; E]: vector order first, B once, then the
    keyword-only passages in keyword order, and no passage twice. *)
Theorem fusion_vector_then_keyword
    (Embedding : Type) (w : World Embedding) (phrase : string) (tr : Trace)
    (A B C D E : string) :
  connect w 0 = true ->
  vector_rows w (VStr phrase) = Some [A; B; C] ->
  keyword_rows w (VStr phrase) = Some [B; D; E] ->
  NoDup [A; B; C; D; E] ->
  fst (query_vector_db w (VStr phrase) tr) = Returns [A; B; C; D; E]
  /\ NoDup [A; B; C; D; E].
Proof.
  intros Hc Hv Hk Hnd. split; [|exact Hnd].
  rewrite query_vector_db_fuse; [|unfold vector_rows in Hv;
    destruct (model w); [discriminate | discriminate] | exact Hc].
  rewrite Hv, Hk. f_equal.
  assert (HAB : A <> B /\ A <> C /\ A <> D /\ A <> E /\ B <> C /\ B <> D
                /\ B <> E /\ C <> D /\ C <> E /\ D <> E).
  { repeat match goal with
           | H : NoDup (_ :: _) |- _ => inversion H; subst; clear H
           end.
    simpl in *. repeat split; intros ->; tauto. }
  destruct HAB as (? & ? & ? & ? & ? & ? & ? & ? & ? & ?).
  unfold fuse, after_vector, after_keyword, rank_results.
  repeat (progress (cbn [add_vector_rows add_keyword_rows PyDict.set
                          PyDict.contains];
                    decide_eqb)).
  repeat (progress (cbn; decide_eqb)).
  reflexivity.
Qed.

Lemma fusion_vector_then_keyword_witness :
  fst (query_vector_db
         (sample_world (Returns ["A"; "B"; "C"]) (Returns ["B"; "D"; "E"]))
         (VStr "what is rag") [])
  = Returns ["A"; "B"; "C"; "D"; "E"]
  /\ NoDup ["A"; "B"; "C"; "D"; "E"].
Proof.
  apply (fusion_vector_then_keyword unit
           (sample_world (Returns ["A"; "B"; "C"]) (Returns ["B"; "D"; "E"]))
           "what is rag" [] "A" "B" "C" "D" "E");
    try reflexivity.
  repeat constructor; simpl; intuition discriminate.
Defined.

(** ** The ranking and its cut *)
Section RankingFacts.
Import PyDict PyDictFacts.

Lemma In_firstn (n : nat) (l : list string) x : In x (firstn n l) -> In x l.
Proof.
  intros H. rewrite <- (firstn_skipn n l). apply in_or_app. now left.
Qed.

Lemma NoDup_firstn (n : nat) (l : list string) :
  NoDup l -> NoDup (firstn n l).
Proof.
  intros H. rewrite <- (firstn_skipn n l) in H.
  now apply NoDup_app_remove_r in H.
Qed.

Lemma uniq_from_length rows : forall seen,
  List.length (uniq_from seen rows) <= List.length rows.
Proof.
  induction rows as [|r rows IH]; intros seen; simpl; [lia|].
  destruct (existsb (String.eqb r) seen); simpl.
  - specialize (IH seen). lia.
  - specialize (IH (seen ++ [r])). lia.
Qed.

Lemma dedup_In rows x : In x (dedup rows) <-> In x rows.
Proof. unfold dedup. rewrite uniq_from_In. simpl. tauto. Qed.

Lemma keys_fused_NoDup vec kw :
  NoDup (keys (after_keyword kw (after_vector vec))).
Proof. apply keys_after_keyword_NoDup, keys_after_vector_NoDup. Qed.

Lemma rank_results_NoDup d : NoDup (keys d) -> NoDup (rank_results d).
Proof.
  intros H. unfold rank_results.
  pose proof (sorted_by_NoDup (get d) (keys d) H) as Hs.
  destruct (sorted_by (get d) (keys d)) as [|x l] eqn:E.
  - constructor; [simpl; tauto | constructor].
  - now apply NoDup_firstn.
Qed.

Lemma rank_results_length d : List.length (rank_results d) <= 10.
Proof.
  unfold rank_results.
  destruct (sorted_by (get d) (keys d)) as [|x l]; [simpl; lia|].
  apply firstn_le_length.
Qed.

(** With at most [TOP_K] vector rows the ranking is the vector texts, all
    of them, followed by keyword-only texts. *)
Lemma fuse_split V kw :
  List.length V <= TOP_K -> V <> [] ->
  exists S1,
    Permutation S1 (dedup V)
    /\ fuse (Some V) kw
       = S1 ++ firstn (10 - List.length S1)
                 (uniq_from (dedup V)
                    (match kw with Some K => K | None => [] end)).
Proof.
  intros HV Hne. unfold fuse, rank_results, after_vector.
  rewrite sorted_keys_split by (unfold TOP_K, KEYWORD_ONLY_RANK in *; lia).
  set (d := after_keyword kw (add_vector_rows 0 V [])).
  set (S1 := sorted_by (get d) (dedup V)).
  set (L2 := uniq_from (dedup V) _).
  exists S1. split; [apply sorted_by_perm|].
  assert (Hlen : List.length S1 <= 10).
  { unfold S1. rewrite sorted_by_length. unfold dedup.
    pose proof (uniq_from_length V []). unfold TOP_K in HV. lia. }
  destruct (S1 ++ L2) as [|x l] eqn:E.
  - exfalso. destruct V as [|v V]; [congruence|].
    assert (Hin : In v S1).
    { unfold S1. rewrite sorted_by_In, dedup_In. now left. }
    destruct S1; [destruct Hin | discriminate].
  - rewrite <- E, firstn_app, firstn_all2 by exact Hlen. reflexivity.
Qed.
End RankingFacts.

(** C2: when the vector search fetched [V] (at most [TOP_K] rows, as its
    LIMIT clause asks) and the keyword search fetched [K], the list returned
    by [query_vector_db] has no duplicate, has at most 10 entries, contains
    every passage of [V], and places every passage of [V] strictly before
    every passage that only [K] contains. *)
Theorem fused_list_invariant
    (Embedding : Type) (w : World Embedding) (query_text : PyVal) (tr : Trace)
    (V K : list string) :
  connect w 0 = true ->
  vector_rows w query_text = Some V ->
  keyword_rows w query_text = Some K ->
  List.length V <= TOP_K ->
  exists docs,
    fst (query_vector_db w query_text tr) = Returns docs
    /\ NoDup docs
    /\ List.length docs <= 10
    /\ forall v l, In v V -> In l K -> ~ In l V ->
         In v docs
         /\ forall i j, nth_error docs i = Some v ->
                        nth_error docs j = Some l -> i < j.
Proof.
  intros Hc Hv Hk HV.
  rewrite query_vector_db_fuse; [|unfold vector_rows in Hv;
    destruct (model w); [discriminate | discriminate] | exact Hc].
  rewrite Hv, Hk. eexists. split; [reflexivity|].
  split; [apply rank_results_NoDup, (keys_fused_NoDup (Some V) (Some K))|].
  split; [apply rank_results_length|].
  intros v l Hv_in Hl_in Hl_out.
  destruct (fuse_split V (Some K) HV) as (S1 & HS1 & Hfuse).
  { intros ->. destruct Hv_in. }
  rewrite Hfuse. clear Hfuse.
  assert (HvS : In v S1).
  { eapply Permutation_in; [apply Permutation_sym, HS1 |].
    now apply dedup_In. }
  split; [apply in_or_app; now left|].
  intros i j Hi Hj.
  assert (Hi' : i < List.length S1).
  { destruct (Nat.lt_ge_cases i (List.length S1)) as [Hlt|Hge]; [exact Hlt|].
    rewrite nth_error_app2 in Hi by exact Hge.
    apply nth_error_In, In_firstn, uniq_from_In in Hi.
    destruct Hi as [_ Hn]. exfalso. apply Hn. now apply dedup_In. }
  assert (Hj' : List.length S1 <= j).
  { destruct (Nat.lt_ge_cases j (List.length S1)) as [Hlt|Hge]; [|exact Hge].
    rewrite nth_error_app1 in Hj by exact Hlt.
    apply nth_error_In in Hj. exfalso. apply Hl_out.
    apply dedup_In. eapply Permutation_in; [apply HS1 | exact Hj]. }
  lia.
Qed.

Lemma fused_list_invariant_witness :
  exists docs,
    fst (query_vector_db
           (sample_world (Returns ["A"; "B"; "A"]) (Returns ["C"; "B"; "C"]))
           (VStr "what is rag") [])
    = Returns docs
    /\ NoDup docs
    /\ List.length docs <= 10
    /\ forall v l, In v ["A"; "B"; "A"] -> In l ["C"; "B"; "C"] ->
                   ~ In l ["A"; "B"; "A"] ->
         In v docs
         /\ forall i j, nth_error docs i = Some v ->
                        nth_error docs j = Some l -> i < j.
Proof.
  apply (fused_list_invariant unit
           (sample_world (Returns ["A"; "B"; "A"]) (Returns ["C"; "B"; "C"]))
           (VStr "what is rag") [] ["A"; "B"; "A"] ["C"; "B"; "C"]);
    try reflexivity.
  unfold TOP_K. simpl. lia.
Defined.

Section KeywordOnly.
Import PyDict PyDictFacts.

Lemma fuse_keyword_only K :
  K <> [] -> fuse None (Some K) = firstn 10 (dedup K).
Proof.
  intros HK. unfold fuse, rank_results, after_vector, after_keyword.
  set (d := add_keyword_rows K []).
  assert (Hkeys : keys d = dedup K).
  { unfold d. now rewrite keys_add_keyword_rows. }
  rewrite Hkeys.
  rewrite (sorted_by_constant (get d) (dedup K) KEYWORD_ONLY_RANK).
  - destruct (dedup K) as [|x l] eqn:E; [|reflexivity].
    destruct K as [|k K]; [congruence|].
    assert (H : In k (dedup (k :: K))) by (apply dedup_In; now left).
    rewrite E in H. destruct H.
  - apply Forall_forall. intros y Hy. apply (proj1 (dedup_In K y)) in Hy.
    unfold d. apply get_add_keyword_rows_new; [simpl; tauto | exact Hy].
Qed.

Lemma dedup_length K : List.length (dedup K) <= List.length K.
Proof. apply uniq_from_length. Qed.
End KeywordOnly.




(** ** The SQL texts and the trace of [query_vector_db] *)
Section TraceFacts.
Variable Embedding : Type.
Variable w : World Embedding.

Ltac run_query :=
  unfold query_vector_db, vector_search, keyword_search, try_except,
    try_finally, bind, _connect_to_db, emit, lift, ret, raise, add_prefix;
  simpl.

Ltac split_world :=
  repeat match goal with
         | |- context [match ?x with _ => _ end] =>
             match x with
             | context [match _ with _ => _ end] => fail 1
             | _ => destruct x eqn:?; simpl
             end
         | |- context [if ?x then _ else _] =>
             match x with
             | context [if _ then _ else _] => fail 1
             | _ => destruct x eqn:?; simpl
             end
         end.

(** Whatever is executed is one of the two SQL texts. *)
Lemma executed_sql query_text sql :
  In (EvExecute sql) (snd (query_vector_db w query_text [])) ->
  sql = VStr vector_query \/ sql = VStr keyword_query.
Proof.
  run_query. split_world; intros H;
    repeat (destruct H as [H|H]; [try discriminate; inversion H; auto|]);
    destruct H.
Qed.

(** When the keyword search runs, it submits [keyword_query]. *)
Lemma keyword_sql_executed query_text :
  model w <> None -> connect w 0 = true ->
  closed_before_keyword w = false \/ connect w 1 = true ->
  In (EvExecute (VStr keyword_query))
     (snd (query_vector_db w query_text [])).
Proof.
  intros Hm Hc Hk. run_query.
  destruct (model w) as [encode|]; [clear Hm | congruence].
  rewrite Hc. simpl.
  destruct Hk as [Hk|Hk]; rewrite ?Hk; split_world; rewrite ?Hk; simpl;
    auto 10.
Qed.
End TraceFacts.

(** C9: the SQL text of the keyword search is the plain literal: it holds
    the substring "LIMIT {TOP_K}" and no "LIMIT 5", unlike the text of the
    vector search, whose placeholder is interpolated.  Every statement
    [query_vector_db] executes is one of these two texts, whatever the
    phrase, and a keyword search that runs executes the keyword text. *)
Theorem keyword_query_keeps_placeholder
    (Embedding : Type) (w : World Embedding) (query_text : PyVal) :
  contains_str "LIMIT {TOP_K}" keyword_query = true
  /\ contains_str ("LIMIT " ++ decimal TOP_K) keyword_query = false
  /\ contains_str ("LIMIT " ++ decimal TOP_K) vector_query = true
  /\ (forall sql,
        In (EvExecute sql) (snd (query_vector_db w query_text [])) ->
        sql = VStr vector_query \/ sql = VStr keyword_query)
  /\ (model w <> None -> connect w 0 = true ->
      closed_before_keyword w = false \/ connect w 1 = true ->
      In (EvExecute (VStr keyword_query))
         (snd (query_vector_db w query_text []))).
Proof.
  split; [vm_compute; reflexivity|].
  split; [vm_compute; reflexivity|].
  split; [vm_compute; reflexivity|].
  split.
  - intros sql. apply executed_sql.
  - apply keyword_sql_executed.
Qed.

Lemma keyword_query_keeps_placeholder_witness :
  In (EvExecute (VStr keyword_query))
     (snd (query_vector_db (sample_world (Returns ["A"]) (Returns ["B"]))
             (VStr "what is rag") []))
  /\ contains_str "LIMIT {TOP_K}" keyword_query = true.
Proof.
  destruct (keyword_query_keeps_placeholder unit
              (sample_world (Returns ["A"]) (Returns ["B"]))
              (VStr "what is rag")) as (Hlit & _ & _ & _ & Hrun).
  split; [|exact Hlit].
  apply Hrun; [discriminate | reflexivity | left; reflexivity].
Defined.

(** C10: when the model is not loaded, [query_vector_db] returns the
    one-element list with the model error and leaves the trace as it was:
    no connection, no query. *)
Theorem model_not_loaded
    (Embedding : Type) (w : World Embedding) (query_text : PyVal) (tr : Trace) :
  model w = None ->
  query_vector_db w query_text tr
  = (Returns ["Error: SentenceTransformer model is not loaded."], tr).
Proof.
  intros Hm. unfold query_vector_db. rewrite Hm. reflexivity.
Qed.

Lemma model_not_loaded_witness :
  query_vector_db unloaded_world (VStr "what is rag") []
  = (Returns ["Error: SentenceTransformer model is not loaded."], []).
Proof.
  apply (model_not_loaded unit unloaded_world (VStr "what is rag") []).
  reflexivity.
Defined.

(** ** The brace search *)
Section BraceSearch.
Local Open Scope string_scope.

Lemma upto_last_close_Some s m :
  upto_last_close s = Some m ->
  exists mid post, s = mid ++ "}" ++ post /\ m = mid ++ "}".
Proof.
  revert m. induction s as [|c rest IH]; intros m; simpl; [discriminate|].
  destruct (upto_last_close rest) as [m'|] eqn:E.
  - intros H. inversion H; subst. destruct (IH m' eq_refl) as (mid & post & -> & ->).
    exists (String c mid), post. split; reflexivity.
  - destruct (Ascii.eqb_spec c "}") as [->|Hc]; [|discriminate].
    intros H. inversion H; subst. exists "", rest. split; reflexivity.
Qed.

Lemma upto_last_close_None s :
  upto_last_close s = None -> has_char "}" s = false.
Proof.
  induction s as [|c rest IH]; simpl; [reflexivity|].
  destruct (upto_last_close rest) as [m'|]; [discriminate|].
  destruct (Ascii.eqb c "}"); [discriminate | intros _; now apply IH].
Qed.

Lemma upto_last_close_app mid post :
  has_char "}" post = false ->
  upto_last_close (mid ++ "}" ++ post) = Some (mid ++ "}").
Proof.
  intros Hpost. induction mid as [|c mid IH]; simpl.
  - assert (E : upto_last_close post = None).
    { clear -Hpost. induction post as [|c post IH]; simpl in *; [reflexivity|].
      destruct (Ascii.eqb c "}"); [discriminate|]. now rewrite IH. }
    now rewrite E.
  - simpl in IH. now rewrite IH.
Qed.

Lemma re_search_braces_Some text m :
  re_search_braces text = Some m ->
  exists pre mid post,
    text = pre ++ "{" ++ mid ++ "}" ++ post /\ m = "{" ++ mid ++ "}".
Proof.
  induction text as [|c rest IH]; simpl; [discriminate|].
  destruct (Ascii.eqb_spec c "{") as [->|Hc].
  - destruct (upto_last_close rest) as [m'|] eqn:E.
    + intros H. inversion H; subst.
      destruct (upto_last_close_Some _ _ E) as (mid & post & -> & ->).
      exists "", mid, post. split; reflexivity.
    + intros H. destruct (IH H) as (pre & mid & post & -> & ->).
      exists (String "{" pre), mid, post. split; reflexivity.
  - intros H. destruct (IH H) as (pre & mid & post & -> & ->).
    exists (String c pre), mid, post. split; reflexivity.
Qed.

Lemma has_char_app c s t :
  has_char c (s ++ t) = has_char c s || has_char c t.
Proof.
  induction s as [|a s IH]; simpl; [reflexivity|].
  destruct (Ascii.eqb a c); [reflexivity | exact IH].
Qed.

(** A text with a brace-delimited region is matched. *)
Lemma re_search_braces_region pre mid post :
  re_search_braces (pre ++ "{" ++ mid ++ "}" ++ post) <> None.
Proof.
  induction pre as [|c pre IH]; simpl.
  - destruct (upto_last_close (mid ++ String "}" post)) as [m|] eqn:E;
      [discriminate|].
    apply upto_last_close_None in E.
    rewrite has_char_app in E. simpl in E.
    rewrite orb_true_r in E. discriminate.
  - destruct (Ascii.eqb c "{"); [|exact IH].
    destruct (upto_last_close _); [discriminate | exact IH].
Qed.

(** From the first opening brace to the last closing brace. *)
Lemma re_search_braces_span pre mid post :
  has_char "{" pre = false -> has_char "}" post = false ->
  re_search_braces (pre ++ "{" ++ mid ++ "}" ++ post)
  = Some ("{" ++ mid ++ "}").
Proof.
  intros Hpre Hpost. induction pre as [|c pre IH]; simpl.
  - change (String "}" post) with ("}" ++ post).
    now rewrite upto_last_close_app.
  - simpl in Hpre.
    destruct (Ascii.eqb c "{"); [discriminate|]. now apply IH.
Qed.

Lemma no_open_no_region text :
  has_char "{" text = false ->
  forall pre mid post, text <> pre ++ "{" ++ mid ++ "}" ++ post.
Proof.
  intros H pre mid post ->. rewrite has_char_app in H. simpl in H.
  rewrite orb_true_r in H. discriminate.
Qed.
End BraceSearch.

(** ** The pipeline *)
Section PipelineFacts.
Variable Embedding : Type.
Variable json_loads : string -> Outcome (list (string * PyVal)).
Variable dedent : string -> string.
Variable str_rows : list Tuple -> string.
Variable str_val : PyVal -> string.
Variable w : World Embedding.
Variable g : Gemini.

Lemma query_relational_db_returns sql_query tr :
  exists rows tr', query_relational_db w sql_query tr = (Returns rows, tr').
Proof.
  unfold query_relational_db, try_finally, bind, _connect_to_db, emit, ret.
  destruct (connect w 0); simpl; [|eexists; eexists; reflexivity].
  destruct (relational_execute w sql_query) as [e| |rows]; simpl;
    try (destruct rows); eexists; eexists; reflexivity.
Qed.

Lemma synthesize_run prompt tr :
  synthesize g prompt tr
  = (Returns (final_answer g prompt), tr ++ [EvGenerate prompt]).
Proof.
  unfold synthesize, final_answer, try_except, bind, emit, lift, ret.
  destruct (generate_final g prompt) as [resp|e]; [|reflexivity].
  destruct (block_reason resp); [reflexivity|].
  destruct (text resp); reflexivity.
Qed.

Lemma retrieve_returns parsed_intent tr :
  exists r tr', retrieve str_rows str_val w parsed_intent tr = (Returns r, tr').
Proof.
  unfold retrieve.
  destruct (eq_str _ "semantic").
  - destruct (truthy _); simpl; [|eexists; eexists; reflexivity].
    unfold bind.
    destruct (query_vector_db_returns Embedding w
                (get parsed_intent "query") tr) as (docs & tr' & ->).
    eexists; eexists; reflexivity.
  - destruct (eq_str _ "structured"); [|eexists; eexists; reflexivity].
    destruct (truthy _); simpl; [|eexists; eexists; reflexivity].
    unfold bind.
    destruct (query_relational_db_returns (get parsed_intent "query") tr)
      as (rows & tr' & ->).
    eexists; eexists; reflexivity.
Qed.

Lemma parse_returns response_text :
  exists d, _parse_json_from_response json_loads response_text = Returns d.
Proof.
  unfold _parse_json_from_response.
  destruct (re_search_braces response_text) as [js|]; [|eexists; reflexivity].
  destruct (json_loads js); eexists; reflexivity.
Qed.

(** The run of [handle_user_query] once the first answer has been parsed. *)
Lemma handle_user_query_parsed user_question tr resp t d :
  generate_parsing g (parsing_prompt dedent user_question) = Returns resp ->
  text resp = Returns t ->
  _parse_json_from_response json_loads t = Returns d ->
  handle_user_query json_loads dedent str_rows str_val w g user_question tr
  = bind (retrieve str_rows str_val w d)
      (fun retrieved =>
         synthesize g
           (final_prompt dedent str_val user_question
              (fst retrieved) (snd retrieved)))
      (tr ++ [EvGenerate (parsing_prompt dedent user_question)]).
Proof.
  intros Hg Ht Hd.
  unfold handle_user_query, try_except, lift, emit, ret.
  unfold bind at 1. unfold bind at 2. unfold bind at 2. simpl.
  rewrite Hg. unfold bind at 2. rewrite Ht. unfold bind at 2. rewrite Hd.
  reflexivity.
Qed.





(** C5, as the code has it: the text decoded runs from the first opening
    brace to the last closing brace; so an object followed by a trailing text
    without closing brace is parsed as the object alone. *)
Theorem parse_spans_first_to_last_brace (pre mid post : string) :
  has_char "{" pre = false ->
  has_char "}" post = false ->
  re_search_braces (pre ++ "{" ++ mid ++ "}" ++ post)
  = Some ("{" ++ mid ++ "}")%string
  /\ _parse_json_from_response json_loads (pre ++ "{" ++ mid ++ "}" ++ post)
     = _parse_json_from_response json_loads ("{" ++ mid ++ "}").
Proof.
  intros Hpre Hpost.
  pose proof (re_search_braces_span pre mid post Hpre Hpost) as H1.
  pose proof (re_search_braces_span "" mid "" eq_refl eq_refl) as H2.
  split; [exact H1|].
  unfold _parse_json_from_response. rewrite H1.
  replace ("{" ++ mid ++ "}")%string
    with ("" ++ "{" ++ mid ++ "}" ++ "")%string at 2 by reflexivity.
  now rewrite H2.
Qed.

End PipelineFacts.

(** ** The claims on sample runs *)






Lemma parse_spans_first_to_last_brace_witness :
  re_search_braces ("Here it is: " ++ sample_semantic_json ++ " (done)")
  = Some sample_semantic_json.
Proof.
  apply (parse_spans_first_to_last_brace sample_json_loads "Here it is: "
           (dq ++ "intent" ++ dq ++ ":" ++ dq ++ "semantic" ++ dq ++ ","
            ++ dq ++ "query" ++ dq ++ ":" ++ dq ++ "rag" ++ dq)%string
           " (done)");
    reflexivity.
Defined.

(** C5, as the claim has it, fails: for a JSON object followed by a text
    with braces, the text decoded is not the first balanced object but runs
    to the last closing brace, and the result is the "Invalid JSON." error
    intent although the object alone decodes. *)
Lemma first_balanced_object_counterexample :
  let response_text := (sample_semantic_json ++ " {}")%string in
  spec_first_balanced_object response_text = Some sample_semantic_json
  /\ re_search_braces response_text = Some response_text
  /\ _parse_json_from_response sample_json_loads response_text
     = Returns (error_intent "Invalid JSON.")
  /\ _parse_json_from_response sample_json_loads sample_semantic_json
     = Returns [("intent", VStr "semantic"); ("query", VStr "rag")].
Proof.
  vm_compute. repeat split.
Qed.

(** * Further properties of the retriever *)

(** ** [query_relational_db] *)
Section RelationalFacts.
Variable Embedding : Type.
Variable w : World Embedding.


(** X2: what [query_relational_db] does to the connection: without a
    connection nothing is executed; with one, the query is executed once, a
    rollback follows exactly when the execution raised, and the connection is
    closed last in every case. *)
Theorem query_relational_db_trace (sql_query : PyVal) (tr : Trace) :
  snd (query_relational_db w sql_query tr)
  = if connect w 0
    then tr ++ [EvConnect; EvExecute sql_query]
            ++ match relational_execute w sql_query with
               | ExecRaises _ => [EvRollback]
               | _ => []
               end
            ++ [EvClose]
    else tr ++ [EvConnect].
Proof.
  unfold query_relational_db, try_finally, bind, _connect_to_db, emit, ret.
  destruct (connect w 0); simpl; [|reflexivity].
  destruct (relational_execute w sql_query) as [e| |rows]; simpl;
    try (destruct rows); simpl; repeat rewrite <- app_assoc; reflexivity.
Qed.

End RelationalFacts.

(** ** [query_vector_db] in every world *)
Section VectorDbFacts.
Variable Embedding : Type.
Variable w : World Embedding.

Lemma rank_results_nonempty d : rank_results d <> [].
Proof.
  unfold rank_results.
  destruct (sorted_by (PyDict.get d) (PyDict.keys d)); simpl; discriminate.
Qed.

Lemma rank_results_In d x :
  In x (rank_results d) -> x = NO_RELEVANT_DOCUMENTS \/ In x (PyDict.keys d).
Proof.
  unfold rank_results.
  destruct (sorted_by (PyDict.get d) (PyDict.keys d)) as [|y l] eqn:E.
  - intros [<-|[]]. now left.
  - intros H. right. apply In_firstn in H. rewrite <- E in H.
    now apply sorted_by_In in H.
Qed.

Lemma fused_keys_In vec kw x :
  In x (PyDict.keys (after_keyword kw (after_vector vec))) ->
  (exists V, vec = Some V /\ In x V) \/ (exists K, kw = Some K /\ In x K).
Proof.
  assert (Hv : In x (PyDict.keys (after_vector vec)) ->
               exists V, vec = Some V /\ In x V).
  { destruct vec as [V|]; simpl; [|tauto].
    rewrite keys_add_vector_rows. simpl. intros H.
    apply uniq_from_In in H. exists V. tauto. }
  destruct kw as [K|]; simpl.
  - rewrite keys_add_keyword_rows, in_app_iff. intros [H|H]; [left; auto|].
    apply uniq_from_In in H. right. exists K. tauto.
  - intros H. left. auto.
Qed.

(** The three ways a call ends. *)
Lemma query_vector_db_cases query_text tr :
  fst (query_vector_db w query_text tr)
  = Returns
      (match model w with
       | None => [MODEL_NOT_LOADED]
       | Some _ =>
           if connect w 0
           then fuse (vector_rows w query_text) (keyword_rows w query_text)
           else [DB_CONNECTION_ERROR]
       end).
Proof.
  destruct (model w) as [encode|] eqn:Hm.
  - destruct (connect w 0) eqn:Hc.
    + apply query_vector_db_fuse; [congruence | exact Hc].
    + unfold query_vector_db, bind, _connect_to_db, emit, ret.
      rewrite Hm, Hc. reflexivity.
  - unfold query_vector_db. rewrite Hm. reflexivity.
Qed.


(** X5: [query_vector_db] makes up no passage: every entry of the list it
    returns is one of its three fixed messages or a text that the vector
    search or the keyword search fetched in this call. *)
Theorem query_vector_db_provenance
    (query_text : PyVal) (tr : Trace) (docs : list string) (x : string) :
  fst (query_vector_db w query_text tr) = Returns docs ->
  In x docs ->
  (x = MODEL_NOT_LOADED \/ x = DB_CONNECTION_ERROR
   \/ x = NO_RELEVANT_DOCUMENTS)
  \/ (exists V, vector_rows w query_text = Some V /\ In x V)
  \/ (exists K, keyword_rows w query_text = Some K /\ In x K).
Proof.
  rewrite query_vector_db_cases. intros Hdocs Hx.
  inversion Hdocs as [Hd]. clear Hdocs. subst docs.
  destruct (model w).
  - destruct (connect w 0).
    + apply rank_results_In in Hx. destruct Hx as [->|Hx]; [tauto|].
      right. now apply fused_keys_In.
    + destruct Hx as [<-|[]]. tauto.
  - destruct Hx as [<-|[]]. tauto.
Qed.

(** X6: when the model is loaded and the first connection fails, the answer
    is the one-element list with the connection error, and the call did
    nothing but try to connect: no encoding, no query, no rollback. *)
Theorem query_vector_db_no_connection (query_text : PyVal) (tr : Trace) :
  model w <> None ->
  connect w 0 = false ->
  query_vector_db w query_text tr
  = (Returns ["Database connection error."], tr ++ [EvConnect]).
Proof.
  intros Hm Hc. unfold query_vector_db, bind, _connect_to_db, emit, ret.
  destruct (model w); [|congruence]. rewrite Hc. reflexivity.
Qed.
End VectorDbFacts.

(** ** Vector rows without repetition keep their order *)
Section VectorOrder.
Import PyDict PyDictFacts.

Lemma uniq_from_fresh rows : forall seen,
  NoDup rows -> (forall x, In x rows -> ~ In x seen) ->
  uniq_from seen rows = rows.
Proof.
  induction rows as [|r rows IH]; intros seen Hnd Hfresh; simpl; [reflexivity|].
  inversion Hnd as [|? ? Hr Hnd']; subst.
  destruct (existsb (String.eqb r) seen) eqn:E.
  - apply existsb_eqb_In in E. exfalso. apply (Hfresh r); [now left | exact E].
  - f_equal. apply IH; [exact Hnd'|].
    intros x Hx Hin. apply in_app_iff in Hin. destruct Hin as [Hin|[<-|[]]].
    + apply (Hfresh x); [now right | exact Hin].
    + tauto.
Qed.

Lemma get_add_vector_rows_index rows : forall i d,
  NoDup rows ->
  map (get (add_vector_rows i rows d)) rows = seq i (List.length rows).
Proof.
  induction rows as [|r rows IH]; intros i d Hnd; simpl; [reflexivity|].
  inversion Hnd as [|? ? Hr Hnd']; subst. f_equal.
  - rewrite get_add_vector_rows_other by exact Hr. apply get_set_same.
  - now apply IH.
Qed.

Lemma sorted_by_increasing key l : forall i,
  map key l = seq i (List.length l) -> sorted_by key l = l.
Proof.
  induction l as [|x l IH]; intros i H; simpl; [reflexivity|].
  simpl in H. injection H as Hx Hl. rewrite (IH (S i) Hl).
  destruct l as [|y l]; [reflexivity|]. simpl in Hl. injection Hl as Hy _.
  simpl. destruct (Nat.leb_spec (key x) (key y)); [reflexivity | lia].
Qed.

Lemma fuse_distinct_vector_rows V kw :
  NoDup V -> V <> [] -> List.length V <= TOP_K ->
  fuse (Some V) kw
  = V ++ firstn (10 - List.length V)
           (uniq_from V (match kw with Some K => K | None => [] end)).
Proof.
  intros Hnd Hne HV. unfold fuse, rank_results, after_vector.
  rewrite sorted_keys_split by (unfold TOP_K, KEYWORD_ONLY_RANK in *; lia).
  assert (Hd : dedup V = V).
  { unfold dedup. apply uniq_from_fresh; [exact Hnd | simpl; tauto]. }
  rewrite Hd.
  set (dv := add_vector_rows 0 V []).
  set (d := after_keyword kw dv).
  assert (Hs : sorted_by (get d) V = V).
  { apply sorted_by_increasing with (i := 0).
    rewrite <- (get_add_vector_rows_index V 0 [] Hnd). fold dv.
    apply map_ext_in. intros x Hx. unfold d.
    destruct kw as [K|]; simpl; [|reflexivity].
    apply get_add_keyword_rows_old. unfold dv.
    rewrite keys_add_vector_rows. simpl. fold (dedup V). now rewrite Hd. }
  rewrite Hs.
  destruct V as [|v V']; [congruence|].
  set (L2 := uniq_from (v :: V') _).
  change ((v :: V') ++ L2) with (v :: (V' ++ L2)).
  cbv iota. change (v :: (V' ++ L2)) with ((v :: V') ++ L2).
  rewrite firstn_app, firstn_all2; [reflexivity|].
  unfold TOP_K in HV. lia.
Qed.
End VectorOrder.

(** X7: when the vector search fetched the rows [V], all different, at
    least one and at most [TOP_K], the answer starts with [V] in the order
    fetched, followed by the keyword rows that are not in [V], each once, in
    keyword order, as many as fit in ten entries; nothing follows [V] when
    the keyword search raised. *)
Theorem vector_order_kept
    (Embedding : Type) (w : World Embedding) (query_text : PyVal) (tr : Trace)
    (V : list string) :
  connect w 0 = true ->
  vector_rows w query_text = Some V ->
  NoDup V -> V <> [] -> List.length V <= TOP_K ->
  fst (query_vector_db w query_text tr)
  = Returns
      (V ++ firstn (10 - List.length V)
              (uniq_from V
                 (match keyword_rows w query_text with
                  | Some K => K
                  | None => []
                  end))).
Proof.
  intros Hc Hv Hnd Hne HV.
  rewrite query_vector_db_fuse; [|unfold vector_rows in Hv;
    destruct (model w); [discriminate | discriminate] | exact Hc].
  rewrite Hv. f_equal. now apply fuse_distinct_vector_rows.
Qed.

(** ** The connection during [query_vector_db] *)
Section ConnectionFacts.
Variable Embedding : Type.
Variable w : World Embedding.

Ltac run_query :=
  unfold query_vector_db, vector_search, keyword_search, try_except,
    try_finally, bind, _connect_to_db, emit, lift, ret, raise, add_prefix;
  simpl.

Ltac split_world :=
  repeat match goal with
         | |- context [match ?x with _ => _ end] =>
             match x with
             | context [match _ with _ => _ end] => fail 1
             | _ => destruct x eqn:?; simpl
             end
         | |- context [if ?x then _ else _] =>
             match x with
             | context [if _ then _ else _] => fail 1
             | _ => destruct x eqn:?; simpl
             end
         end.

(** X8: in a call that loaded the model and connected, a rollback is issued
    exactly when the vector path raised, and then only once. *)
Theorem rollback_iff_vector_path_raised (query_text : PyVal) :
  model w <> None -> connect w 0 = true ->
  filter is_rollback (snd (query_vector_db w query_text []))
  = match vector_rows w query_text with
    | None => [EvRollback]
    | Some _ => []
    end.
Proof.
  intros Hm Hc. unfold vector_rows. run_query.
  destruct (model w) as [encode|]; [clear Hm | congruence].
  rewrite Hc. simpl. split_world; reflexivity.
Qed.

(** X9: in a call that loaded the model and connected, the connection is
    closed at most once, as the last thing done, and exactly when a
    connection is held (the first one, or the one made again before the
    keyword search) that is not closed already. *)
Theorem connection_closed_last (query_text : PyVal) :
  model w <> None -> connect w 0 = true ->
  let held := negb (closed_before_keyword w) || connect w 1 in
  let added := snd (query_vector_db w query_text []) in
  filter is_close added
  = (if held && negb (closed_at_end w) then [EvClose] else [])
  /\ (held && negb (closed_at_end w) = true ->
      last added EvConnect = EvClose).
Proof.
  intros Hm Hc. run_query.
  destruct (model w) as [encode|]; [clear Hm | congruence].
  rewrite Hc. simpl.
  split_world; (split; [reflexivity | try reflexivity; discriminate]).
Qed.
End ConnectionFacts.

(** * Further properties of the pipeline *)

(** ** What the brace search extracts *)
Section BraceSearchShape.
Local Open Scope string_scope.

Lemma upto_last_close_last s m :
  upto_last_close s = Some m ->
  exists mid post,
    s = mid ++ "}" ++ post /\ m = mid ++ "}" /\ has_char "}" post = false.
Proof.
  revert m. induction s as [|c rest IH]; intros m; simpl; [discriminate|].
  destruct (upto_last_close rest) as [m'|] eqn:E.
  - intros H. injection H as <-.
    destruct (IH m' eq_refl) as (mid & post & -> & -> & Hpost).
    exists (String c mid), post. repeat split; assumption.
  - destruct (Ascii.eqb_spec c "}") as [->|Hc]; [|discriminate].
    intros H. injection H as <-. exists "", rest.
    repeat split. now apply upto_last_close_None.
Qed.

Lemma region_has_close pre mid post :
  has_char "}" (pre ++ "{" ++ mid ++ "}" ++ post) = true.
Proof.
  rewrite has_char_app. simpl. rewrite has_char_app. simpl.
  now rewrite !orb_true_r.
Qed.

(** X10: what [re.search] finds: the match starts at the first opening
    brace of the text and ends at its last closing brace. *)
Theorem re_search_braces_shape (text m : string) :
  re_search_braces text = Some m ->
  exists pre mid post,
    text = pre ++ m ++ post
    /\ m = "{" ++ mid ++ "}"
    /\ has_char "{" pre = false
    /\ has_char "}" post = false.
Proof.
  revert m. induction text as [|c rest IH]; intros m; simpl; [discriminate|].
  destruct (Ascii.eqb_spec c "{") as [->|Hc].
  - destruct (upto_last_close rest) as [m'|] eqn:E.
    + intros H. injection H as <-.
      destruct (upto_last_close_last _ _ E) as (mid & post & -> & -> & Hpost).
      exists "", mid, post. repeat split; try assumption.
      simpl. f_equal. clear. induction mid as [|a mid IHm]; simpl;
        [reflexivity | now f_equal].
    + intros H. exfalso.
      destruct (re_search_braces_Some _ _ H) as (pre & mid & post & -> & _).
      apply upto_last_close_None in E.
      rewrite region_has_close in E. discriminate.
  - intros H. destruct (IH m H) as (pre & mid & post & -> & -> & Hpre & Hpost).
    exists (String c pre), mid, post. repeat split; try assumption.
    simpl. destruct (Ascii.eqb_spec c "{"); [congruence | exact Hpre].
Qed.

(** X11: [re.search] finds nothing exactly in the texts that have no
    opening brace followed, anywhere later, by a closing brace. *)
Theorem re_search_braces_None_iff (text : string) :
  re_search_braces text = None
  <-> forall pre mid post, text <> pre ++ "{" ++ mid ++ "}" ++ post.
Proof.
  split.
  - intros H pre mid post ->. now apply (re_search_braces_region pre mid post).
  - intros Hno. destruct (re_search_braces text) as [m|] eqn:E; [|reflexivity].
    destruct (re_search_braces_Some _ _ E) as (pre & mid & post & Heq & _).
    exfalso. exact (Hno pre mid post Heq).
Qed.

Lemma balanced_rest_flat mid post :
  has_char "{" mid = false -> has_char "}" mid = false ->
  balanced_rest 0 (mid ++ "}" ++ post) = Some (mid ++ "}").
Proof.
  induction mid as [|c mid IH]; simpl; [reflexivity|].
  destruct (Ascii.eqb c "{"); [discriminate|].
  destruct (Ascii.eqb c "}"); [discriminate|].
  intros H1 H2. simpl in IH. now rewrite IH.
Qed.

Lemma spec_first_balanced_flat pre mid post :
  has_char "{" pre = false ->
  has_char "{" mid = false -> has_char "}" mid = false ->
  spec_first_balanced_object (pre ++ "{" ++ mid ++ "}" ++ post)
  = Some ("{" ++ mid ++ "}").
Proof.
  intros Hpre H1 H2. induction pre as [|c pre IH]; simpl.
  - change (String "}" post) with ("}" ++ post).
    now rewrite balanced_rest_flat.
  - simpl in Hpre. destruct (Ascii.eqb c "{"); [discriminate|]. now apply IH.
Qed.

(** X12: on a text whose first brace-delimited region holds no further
    brace and is followed by no closing brace, the text decoded is the first
    balanced object of the specification. *)
Theorem re_search_braces_agrees_on_flat_object (pre mid post : string) :
  has_char "{" pre = false ->
  has_char "{" mid = false -> has_char "}" mid = false ->
  has_char "}" post = false ->
  re_search_braces (pre ++ "{" ++ mid ++ "}" ++ post)
  = spec_first_balanced_object (pre ++ "{" ++ mid ++ "}" ++ post).
Proof.
  intros Hpre H1 H2 Hpost.
  rewrite re_search_braces_span, spec_first_balanced_flat by assumption.
  reflexivity.
Qed.
End BraceSearchShape.

(** ** Traces of the retriever, from any starting trace *)
Section TraceFrames.
Variable Embedding : Type.
Variable w : World Embedding.

Ltac run_query :=
  unfold query_vector_db, vector_search, keyword_search, try_except,
    try_finally, bind, _connect_to_db, emit, lift, ret, raise, add_prefix;
  simpl.

Ltac split_world :=
  repeat match goal with
         | |- context [match ?x with _ => _ end] =>
             match x with
             | context [match _ with _ => _ end] => fail 1
             | _ => destruct x eqn:?; simpl
             end
         | |- context [if ?x then _ else _] =>
             match x with
             | context [if _ then _ else _] => fail 1
             | _ => destruct x eqn:?; simpl
             end
         end.

Lemma query_vector_db_frame query_text tr :
  snd (query_vector_db w query_text tr)
  = tr ++ snd (query_vector_db w query_text []).
Proof.
  run_query. split_world; repeat rewrite <- app_assoc; simpl;
    rewrite ?app_nil_r; reflexivity.
Qed.

Lemma query_vector_db_no_generate query_text :
  forallb (fun ev => negb (is_generate ev))
    (snd (query_vector_db w query_text [])) = true.
Proof. run_query. split_world; reflexivity. Qed.

Lemma query_relational_db_frame sql_query tr :
  exists rows added,
    query_relational_db w sql_query tr = (Returns rows, tr ++ added)
    /\ forallb (fun ev => negb (is_generate ev)) added = true
    /\ (connect w 0 = true -> In (EvExecute sql_query) added).
Proof.
  unfold query_relational_db, try_finally, bind, _connect_to_db, emit, ret.
  destruct (connect w 0); simpl.
  - destruct (relational_execute w sql_query) as [e| |rows]; simpl;
      try (destruct rows); simpl; repeat rewrite <- app_assoc; simpl;
      eexists; eexists; (split; [reflexivity|]);
      (split; [reflexivity | intros _; simpl; tauto]).
  - eexists; eexists. split; [reflexivity|]. split; [reflexivity|].
    discriminate.
Qed.
End TraceFrames.

(** ** The dispatch of [handle_user_query] *)
Section DispatchFacts.
Variable Embedding : Type.
Variable json_loads : string -> Outcome (list (string * PyVal)).
Variable dedent : string -> string.
Variable str_rows : list Tuple -> string.
Variable str_val : PyVal -> string.
Variable w : World Embedding.
Variable g : Gemini.

(** X13: when the first call of the model raises, or its answer has no
    text, the first apology is returned at once: the model is not called
    again and the database is not touched. *)
Theorem parsing_call_failure
    (user_question : string) (tr : Trace) (e : string) :
  (generate_parsing g (parsing_prompt dedent user_question) = Raises e
   \/ exists resp,
        generate_parsing g (parsing_prompt dedent user_question)
        = Returns resp
        /\ text resp = Raises e) ->
  handle_user_query json_loads dedent str_rows str_val w g user_question tr
  = (Returns "Sorry, I had trouble understanding.",
     tr ++ [EvGenerate (parsing_prompt dedent user_question)]).
Proof.
  intros [Hg | (resp & Hg & Ht)];
    unfold handle_user_query, try_except, lift, emit, ret;
    unfold bind at 1; unfold bind at 2; unfold bind at 2; simpl;
    rewrite Hg; [reflexivity|].
  unfold bind at 2. rewrite Ht. reflexivity.
Qed.

(** X14: when the first answer decodes to an object whose intent is
    "semantic" and whose query is truthy, the run is [query_vector_db] on
    that query, then the synthesis on the prompt whose context is the
    passages joined by newlines and whose SQL query is "N/A". *)
Theorem semantic_intent_routes_query
    (user_question : string) (tr : Trace) (resp : Response)
    (t : string) (d : list (string * PyVal)) (query : PyVal) :
  generate_parsing g (parsing_prompt dedent user_question) = Returns resp ->
  text resp = Returns t ->
  _parse_json_from_response json_loads t = Returns d ->
  dict_get "intent" d = Some (VStr "semantic") ->
  dict_get "query" d = Some query ->
  truthy query = true ->
  handle_user_query json_loads dedent str_rows str_val w g user_question tr
  = bind (query_vector_db w query)
      (fun context_docs =>
         synthesize g
           (dedent (FINAL_PROMPT_1 ++ user_question
                    ++ FINAL_PROMPT_2 ++ String.concat nl context_docs
                    ++ FINAL_PROMPT_3 ++ "N/A"
                    ++ FINAL_PROMPT_4)%string))
      (tr ++ [EvGenerate (parsing_prompt dedent user_question)]).
Proof.
  intros Hg Ht Hd Hi Hq Htruthy.
  rewrite (handle_user_query_parsed Embedding json_loads dedent str_rows
             str_val w g user_question tr resp t d Hg Ht Hd).
  unfold retrieve, get. rewrite Hi, Hq.
  cbn [eq_str]. change (String.eqb "semantic" "semantic") with true.
  cbv iota. rewrite Htruthy. cbn [negb].
  unfold bind.
  destruct (query_vector_db w query _) as [[docs|e] tr']; reflexivity.
Qed.

(** X15: when the decoded object does not name one of the two intents with
    a truthy query, the database is not touched: the run is the two calls of
    the model, the second on a prompt whose SQL query is "N/A" and whose
    context reports the missing query or the unknown intent. *)
Theorem unroutable_intent_skips_database
    (user_question : string) (tr : Trace) (resp : Response)
    (t : string) (d : list (string * PyVal)) :
  generate_parsing g (parsing_prompt dedent user_question) = Returns resp ->
  text resp = Returns t ->
  _parse_json_from_response json_loads t = Returns d ->
  (eq_str (get d "intent") "semantic" || eq_str (get d "intent") "structured")
  && truthy (get d "query") = false ->
  let context :=
    if eq_str (get d "intent") "semantic"
    then "Parser error: Missing query text for semantic search."
    else if eq_str (get d "intent") "structured"
    then "Parser error: Missing SQL query for structured search."
    else ("Query parser failed or returned unknown intent: "
          ++ format_val str_val (get d "intent"))%string in
  let prompt :=
    dedent (FINAL_PROMPT_1 ++ user_question
            ++ FINAL_PROMPT_2 ++ context
            ++ FINAL_PROMPT_3 ++ "N/A"
            ++ FINAL_PROMPT_4)%string in
  handle_user_query json_loads dedent str_rows str_val w g user_question tr
  = (Returns (final_answer g prompt),
     tr ++ [EvGenerate (parsing_prompt dedent user_question);
            EvGenerate prompt]).
Proof.
  intros Hg Ht Hd Hno context prompt.
  rewrite (handle_user_query_parsed Embedding json_loads dedent str_rows
             str_val w g user_question tr resp t d Hg Ht Hd).
  unfold retrieve, bind. subst prompt context.
  destruct (eq_str (get d "intent") "semantic").
  - simpl in Hno. rewrite Hno. cbn. rewrite synthesize_run.
    now rewrite <- app_assoc.
  - destruct (eq_str (get d "intent") "structured").
    + simpl in Hno. rewrite Hno. cbn. rewrite synthesize_run.
      now rewrite <- app_assoc.
    + cbn. rewrite synthesize_run. now rewrite <- app_assoc.
Qed.

Lemma retrieve_frame parsed_intent tr :
  exists r added,
    retrieve str_rows str_val w parsed_intent tr = (Returns r, tr ++ added)
    /\ forallb (fun ev => negb (is_generate ev)) added = true.
Proof.
  unfold retrieve.
  destruct (eq_str _ "semantic").
  - destruct (truthy _); simpl.
    + unfold bind.
      destruct (query_vector_db_returns Embedding w
                  (get parsed_intent "query") tr) as (docs & tr' & Hrun).
      pose proof (query_vector_db_frame Embedding w
                    (get parsed_intent "query") tr) as Hf.
      rewrite Hrun in Hf. simpl in Hf. subst tr'. rewrite Hrun.
      eexists; eexists. split; [reflexivity|].
      apply query_vector_db_no_generate.
    + exists ("Parser error: Missing query text for semantic search.", VNone),
        []. rewrite app_nil_r. split; reflexivity.
  - destruct (eq_str _ "structured").
    + destruct (truthy _); simpl.
      * unfold bind.
        destruct (query_relational_db_frame Embedding w
                    (get parsed_intent "query") tr)
          as (rows & added & -> & Hadded & _).
        eexists; eexists. split; [reflexivity | exact Hadded].
      * exists ("Parser error: Missing SQL query for structured search.",
                VNone), [].
        rewrite app_nil_r. split; reflexivity.
    + eexists. exists []. rewrite app_nil_r. split; reflexivity.
Qed.

(** X16: in every run the model is called first, on the parsing prompt, and
    at most once more, as the last thing done; whatever touches the
    retriever lies between the two calls. *)
Theorem model_called_first_and_last (user_question : string) (tr : Trace) :
  exists s between tail,
    handle_user_query json_loads dedent str_rows str_val w g user_question tr
    = (Returns s,
       tr ++ [EvGenerate (parsing_prompt dedent user_question)]
          ++ between ++ tail)
    /\ forallb (fun ev => negb (is_generate ev)) between = true
    /\ (tail = [] \/ exists prompt, tail = [EvGenerate prompt]).
Proof.
  destruct (generate_parsing g (parsing_prompt dedent user_question))
    as [resp|e] eqn:Hg.
  2:{ exists UNDERSTANDING_APOLOGY, [], []. split; [|split; [reflexivity|now left]].
      unfold handle_user_query, try_except, lift, emit, ret.
      unfold bind at 1. unfold bind at 2. unfold bind at 2. simpl.
      rewrite Hg. reflexivity. }
  destruct (text resp) as [t|e] eqn:Ht.
  2:{ exists UNDERSTANDING_APOLOGY, [], []. split; [|split; [reflexivity|now left]].
      unfold handle_user_query, try_except, lift, emit, ret.
      unfold bind at 1. unfold bind at 2. unfold bind at 2. simpl.
      rewrite Hg. unfold bind at 2. rewrite Ht. reflexivity. }
  destruct (parse_returns json_loads t) as [d Hd].
  rewrite (handle_user_query_parsed Embedding json_loads dedent str_rows
             str_val w g user_question tr resp t d Hg Ht Hd).
  unfold bind.
  destruct (retrieve_frame d
              (tr ++ [EvGenerate (parsing_prompt dedent user_question)]))
    as (r & added & -> & Hadded).
  rewrite synthesize_run.
  eexists. exists added. eexists. split; [|split; [exact Hadded|]].
  - rewrite <- !app_assoc. reflexivity.
  - right. eexists. reflexivity.
Qed.

(** X17: the SQL text of a structured intent is executed as the model gave
    it, whatever it says, as soon as the database connects. *)
Theorem structured_query_executed_as_given
    (user_question : string) (tr : Trace) (resp : Response)
    (t : string) (d : list (string * PyVal)) (Q : string) :
  generate_parsing g (parsing_prompt dedent user_question) = Returns resp ->
  text resp = Returns t ->
  _parse_json_from_response json_loads t = Returns d ->
  dict_get "intent" d = Some (VStr "structured") ->
  dict_get "query" d = Some (VStr Q) ->
  Q <> ""%string ->
  connect w 0 = true ->
  In (EvExecute (VStr Q))
     (snd (handle_user_query json_loads dedent str_rows str_val w g
             user_question tr)).
Proof.
  intros Hg Ht Hd Hi Hq HQ Hc.
  rewrite (handle_user_query_parsed Embedding json_loads dedent str_rows
             str_val w g user_question tr resp t d Hg Ht Hd).
  unfold retrieve, get. rewrite Hi, Hq.
  assert (Ht' : truthy (VStr Q) = true).
  { simpl. destruct (String.eqb_spec Q ""); [congruence | reflexivity]. }
  cbn [eq_str]. change (String.eqb "structured" "semantic") with false.
  change (String.eqb "structured" "structured") with true.
  cbv iota. rewrite Ht'. cbn [negb].
  unfold bind.
  destruct (query_relational_db_frame Embedding w (VStr Q)
              (tr ++ [EvGenerate (parsing_prompt dedent user_question)]))
    as (rows & added & -> & _ & Hin).
  unfold ret. rewrite synthesize_run. cbn [snd].
  apply in_or_app. left. apply in_or_app. right. now apply Hin.
Qed.

(** X18: on the semantic path the text of the model is never executed as
    SQL: every statement executed is one of the two fixed search queries. *)
Theorem semantic_path_executes_fixed_sql
    (user_question : string) (resp : Response)
    (t : string) (d : list (string * PyVal)) (query sql : PyVal) :
  generate_parsing g (parsing_prompt dedent user_question) = Returns resp ->
  text resp = Returns t ->
  _parse_json_from_response json_loads t = Returns d ->
  dict_get "intent" d = Some (VStr "semantic") ->
  dict_get "query" d = Some query ->
  truthy query = true ->
  In (EvExecute sql)
     (snd (handle_user_query json_loads dedent str_rows str_val w g
             user_question [])) ->
  sql = VStr vector_query \/ sql = VStr keyword_query.
Proof.
  intros Hg Ht Hd Hi Hq Htruthy.
  rewrite (handle_user_query_parsed Embedding json_loads dedent str_rows
             str_val w g user_question [] resp t d Hg Ht Hd).
  unfold retrieve, get. rewrite Hi, Hq.
  cbn [eq_str]. change (String.eqb "semantic" "semantic") with true.
  cbv iota. rewrite Htruthy. cbn [negb].
  unfold bind.
  destruct (query_vector_db_returns Embedding w query
              ([] ++ [EvGenerate (parsing_prompt dedent user_question)]))
    as (docs & tr' & Hrun).
  pose proof (query_vector_db_frame Embedding w query
                ([] ++ [EvGenerate (parsing_prompt dedent user_question)]))
    as Hf.
  rewrite Hrun in Hf. simpl in Hf. rewrite Hrun. unfold ret.
  rewrite synthesize_run. cbn [snd]. subst tr'.
  intros Hin. apply in_app_iff in Hin. destruct Hin as [Hin|[Hin|[]]].
  - destruct Hin as [Hin|Hin]; [discriminate|].
    now apply (executed_sql Embedding w query sql).
  - discriminate.
Qed.
End DispatchFacts.

(** * The front ends *)
Section FrontEndFacts.
Variable Embedding : Type.
Variable json_loads : string -> Outcome (list (string * PyVal)).
Variable dedent : string -> string.
Variable str_rows : list Tuple -> string.
Variable str_val : PyVal -> string.
Variable lower : string -> string.
Variable strip : string -> string.
Variable w : World Embedding.
Variable g : Gemini.

Local Notation "'handle'" :=
  (handle_user_query json_loads dedent str_rows str_val w g).
Local Notation "'loop'" :=
  (chat_loop Embedding json_loads dedent str_rows str_val lower strip w g).
Local Notation "'exit_word'" := (is_exit_word lower).
Local Notation "'blank'" := (is_blank strip).

Lemma handle_user_query_total user_question tr :
  exists s tr', handle user_question tr = (Returns s, tr').
Proof.
  destruct (generate_parsing g (parsing_prompt dedent user_question))
    as [resp|e] eqn:Hg.
  2:{ eexists; eexists.
      unfold handle_user_query, try_except, lift, emit, ret.
      unfold bind at 1. unfold bind at 2. unfold bind at 2. simpl.
      rewrite Hg. reflexivity. }
  destruct (text resp) as [t|e] eqn:Ht.
  2:{ eexists; eexists.
      unfold handle_user_query, try_except, lift, emit, ret.
      unfold bind at 1. unfold bind at 2. unfold bind at 2. simpl.
      rewrite Hg. unfold bind at 2. rewrite Ht. reflexivity. }
  destruct (parse_returns json_loads t) as [d Hd].
  rewrite (handle_user_query_parsed Embedding json_loads dedent str_rows
             str_val w g user_question tr resp t d Hg Ht Hd).
  unfold bind.
  destruct (retrieve_returns Embedding str_rows str_val w d
              (tr ++ [EvGenerate (parsing_prompt dedent user_question)]))
    as (r & tr' & ->).
  rewrite synthesize_run. eexists; eexists; reflexivity.
Qed.


(** X20: blank lines change nothing: a run with the blank lines removed
    prints the same, leaves the same trace and ends in the same state. *)
Theorem chat_loop_skips_blank_lines (inputs : list Input) (tr : Trace) :
  loop (filter (fun i => match i with
                         | Line s => exit_word s || negb (blank s)
                         | _ => true
                         end) inputs) tr
  = loop inputs tr.
Proof.
  revert tr. induction inputs as [|i inputs IH]; intros tr; [reflexivity|].
  destruct i as [s| |e]; cbn [filter].
  - destruct (exit_word s) eqn:Ex; cbn [orb].
    + cbn [chat_loop]. now rewrite Ex.
    + destruct (blank s) eqn:Eb; cbn [negb].
      * cbn [chat_loop]. rewrite Ex, Eb. apply IH.
      * cbn [chat_loop]. rewrite Ex, Eb.
        destruct (handle s tr) as [[answer|e] tr1]; now rewrite IH.
  - reflexivity.
  - cbn [chat_loop]. now rewrite IH.
Qed.

(** X21: once the loop has stopped, nothing that follows is read. *)
Theorem chat_loop_reads_nothing_after_stop
    (before after : list Input) (tr : Trace) :
  snd (loop before tr) = Stopped ->
  loop (before ++ after) tr = loop before tr.
Proof.
  revert tr. induction before as [|i before IH]; intros tr; [discriminate|].
  destruct i as [s| |e]; cbn [chat_loop app].
  - destruct (exit_word s); [reflexivity|].
    destruct (blank s); [apply IH|].
    destruct (handle s tr) as [[answer|e] tr1];
      specialize (IH tr1); destruct (loop before tr1) as [[printed tr'] state];
      intros Hs; rewrite (IH Hs); reflexivity.
  - reflexivity.
  - specialize (IH tr). destruct (loop before tr) as [[printed tr'] state].
    intros Hs. rewrite (IH Hs). reflexivity.
Qed.


Local Notation "'session'" :=
  (app_session Embedding json_loads dedent str_rows str_val w g).

End FrontEndFacts.

(** ** The further properties on sample runs *)

Lemma query_vector_db_provenance_witness :
  ("B" = MODEL_NOT_LOADED \/ "B" = DB_CONNECTION_ERROR
   \/ "B" = NO_RELEVANT_DOCUMENTS)
  \/ (exists V, vector_rows sample_db (VStr "rag") = Some V /\ In "B" V)
  \/ (exists K, keyword_rows sample_db (VStr "rag") = Some K /\ In "B" K).
Proof.
  apply (query_vector_db_provenance unit sample_db (VStr "rag") []
           ["A"; "B"] "B");
    [reflexivity | simpl; tauto].
Defined.

Lemma query_vector_db_no_connection_witness :
  query_vector_db disconnected_world (VStr "rag") []
  = (Returns ["Database connection error."], [] ++ [EvConnect]).
Proof.
  apply (query_vector_db_no_connection unit disconnected_world
           (VStr "rag") []);
    [discriminate | reflexivity].
Defined.

Lemma vector_order_kept_witness :
  fst (query_vector_db
         (sample_world (Returns ["A"; "B"]) (Returns ["B"; "C"; "C"]))
         (VStr "rag") [])
  = Returns ["A"; "B"; "C"].
Proof.
  apply (vector_order_kept unit
           (sample_world (Returns ["A"; "B"]) (Returns ["B"; "C"; "C"]))
           (VStr "rag") [] ["A"; "B"]);
    [reflexivity | reflexivity | | discriminate | unfold TOP_K; simpl; lia].
  repeat constructor; simpl; intuition discriminate.
Defined.

Lemma rollback_iff_vector_path_raised_witness :
  filter is_rollback
    (snd (query_vector_db
            (sample_world (Raises "vector search failed") (Returns ["B"]))
            (VStr "rag") []))
  = [EvRollback].
Proof.
  apply (rollback_iff_vector_path_raised unit
           (sample_world (Raises "vector search failed") (Returns ["B"]))
           (VStr "rag"));
    [discriminate | reflexivity].
Defined.

Lemma connection_closed_last_witness :
  filter is_close (snd (query_vector_db sample_db (VStr "rag") []))
  = [EvClose]
  /\ (true = true ->
      last (snd (query_vector_db sample_db (VStr "rag") [])) EvConnect
      = EvClose).
Proof.
  apply (connection_closed_last unit sample_db (VStr "rag"));
    [discriminate | reflexivity].
Defined.

Lemma re_search_braces_shape_witness :
  exists pre mid post,
    "say {a} and {b} done"%string = (pre ++ "{a} and {b}" ++ post)%string
    /\ "{a} and {b}"%string = ("{" ++ mid ++ "}")%string
    /\ has_char "{" pre = false
    /\ has_char "}" post = false.
Proof.
  apply (re_search_braces_shape "say {a} and {b} done" "{a} and {b}").
  reflexivity.
Defined.

Lemma re_search_braces_None_iff_witness :
  "} then {"%string <> ("} " ++ "{" ++ "then" ++ "}" ++ " {")%string.
Proof.
  apply (proj1 (re_search_braces_None_iff "} then {")). reflexivity.
Defined.

Lemma re_search_braces_agrees_on_flat_object_witness :
  re_search_braces ("Here: " ++ "{" ++ "a" ++ "}" ++ " ok")
  = spec_first_balanced_object ("Here: " ++ "{" ++ "a" ++ "}" ++ " ok").
Proof.
  apply (re_search_braces_agrees_on_flat_object "Here: " "a" " ok");
    reflexivity.
Defined.

Lemma parsing_call_failure_witness :
  sample_run failing_gemini "What is RAG?"
  = (Returns "Sorry, I had trouble understanding.",
     [] ++ [EvGenerate (parsing_prompt sample_dedent "What is RAG?")]).
Proof.
  apply (parsing_call_failure unit sample_json_loads sample_dedent
           sample_str_rows sample_str_val sample_db failing_gemini
           "What is RAG?" [] "service unavailable").
  left. reflexivity.
Defined.

Lemma semantic_intent_routes_query_witness :
  sample_run (sample_gemini sample_semantic_json "RAG was mentioned.")
    "What is RAG?"
  = bind (query_vector_db sample_db (VStr "rag"))
      (fun context_docs =>
         synthesize (sample_gemini sample_semantic_json "RAG was mentioned.")
           (sample_dedent
              (FINAL_PROMPT_1 ++ "What is RAG?"
               ++ FINAL_PROMPT_2 ++ String.concat nl context_docs
               ++ FINAL_PROMPT_3 ++ "N/A"
               ++ FINAL_PROMPT_4)%string))
      ([] ++ [EvGenerate (parsing_prompt sample_dedent "What is RAG?")]).
Proof.
  apply (semantic_intent_routes_query unit sample_json_loads sample_dedent
           sample_str_rows sample_str_val sample_db
           (sample_gemini sample_semantic_json "RAG was mentioned.")
           "What is RAG?" []
           {| text := Returns sample_semantic_json; block_reason := None |}
           sample_semantic_json
           [("intent", VStr "semantic"); ("query", VStr "rag")]
           (VStr "rag"));
    reflexivity.
Defined.

Lemma unroutable_intent_skips_database_witness :
  filter is_db
    (snd (sample_run (sample_gemini "I cannot answer that."
                        "I do not have that information.")
            "What is RAG?"))
  = [].
Proof.
  unfold sample_run.
  rewrite (unroutable_intent_skips_database unit sample_json_loads
             sample_dedent sample_str_rows sample_str_val sample_db
             (sample_gemini "I cannot answer that."
                "I do not have that information.")
             "What is RAG?" []
             {| text := Returns "I cannot answer that.";
                block_reason := None |}
             "I cannot answer that."
             (error_intent "Could not parse."));
    reflexivity.
Defined.

Lemma structured_query_executed_as_given_witness :
  In (EvExecute (VStr "SELECT 1"))
     (snd (sample_run
             (sample_gemini sample_structured_json "There was 1 event.")
             "How many events?")).
Proof.
  apply (structured_query_executed_as_given unit sample_json_loads
           sample_dedent sample_str_rows sample_str_val sample_db
           (sample_gemini sample_structured_json "There was 1 event.")
           "How many events?" []
           {| text := Returns sample_structured_json; block_reason := None |}
           sample_structured_json
           [("intent", VStr "structured"); ("query", VStr "SELECT 1")]
           "SELECT 1");
    try reflexivity.
  discriminate.
Defined.

Lemma semantic_path_executes_fixed_sql_witness :
  VStr keyword_query = VStr vector_query
  \/ VStr keyword_query = VStr keyword_query.
Proof.
  apply (semantic_path_executes_fixed_sql unit sample_json_loads
           sample_dedent sample_str_rows sample_str_val sample_db
           (sample_gemini sample_semantic_json "RAG was mentioned.")
           "What is RAG?"
           {| text := Returns sample_semantic_json; block_reason := None |}
           sample_semantic_json
           [("intent", VStr "semantic"); ("query", VStr "rag")]
           (VStr "rag") (VStr keyword_query));
    try reflexivity.
  vm_compute. do 4 right. left. reflexivity.
Defined.

Lemma chat_loop_reads_nothing_after_stop_witness :
  chat_loop unit sample_json_loads sample_dedent sample_str_rows
    sample_str_val sample_lower sample_strip sample_db
    (sample_gemini sample_semantic_json "RAG was mentioned.")
    ([Line "what is rag"; Line "quit"] ++ [Line "and mcp"]) []
  = chat_loop unit sample_json_loads sample_dedent sample_str_rows
      sample_str_val sample_lower sample_strip sample_db
      (sample_gemini sample_semantic_json "RAG was mentioned.")
      [Line "what is rag"; Line "quit"] [].
Proof.
  apply (chat_loop_reads_nothing_after_stop unit sample_json_loads
           sample_dedent sample_str_rows sample_str_val sample_lower
           sample_strip sample_db
           (sample_gemini sample_semantic_json "RAG was mentioned.")
           [Line "what is rag"; Line "quit"] [Line "and mcp"] []).
  reflexivity.
Defined.


(** ** Loading the model *)

(** X24: a model that is loaded has 768 dimensions, and it is the one the
    first constructor call gave, or, when that call raised, the one the
    second call gave. *)
Theorem load_model_dimension
    (Transformer : Type) (dimension : Transformer -> Outcome nat)
    (with_remote_code without_remote_code : Outcome Transformer)
    (m : Transformer) :
  load_model Transformer dimension with_remote_code without_remote_code
  = Some m ->
  dimension m = Returns 768
  /\ (with_remote_code = Returns m
      \/ (exists e, with_remote_code = Raises e)
         /\ without_remote_code = Returns m).
Proof.
  unfold load_model. intros H.
  assert (Hdim : forall m', (match dimension m' with
                             | Returns d =>
                                 if negb (Nat.eqb d 768) then None else Some m'
                             | Raises _ => None
                             end) = Some m ->
                            m' = m /\ dimension m = Returns 768).
  { intros m' Hm. destruct (dimension m') as [d|e] eqn:Ed; [|discriminate].
    destruct (Nat.eqb_spec d 768) as [->|Hne]; simpl in Hm; [|discriminate].
    injection Hm as <-. split; [reflexivity | exact Ed]. }
  destruct with_remote_code as [m1|e1].
  - destruct (Hdim m1 H) as [-> Hd]. split; [exact Hd | now left].
  - destruct without_remote_code as [m2|e2]; [|discriminate].
    destruct (Hdim m2 H) as [-> Hd]. split; [exact Hd|].
    right. split; [now exists e1 | reflexivity].
Qed.

Lemma load_model_dimension_witness :
  (fun n : nat => Returns n) 768 = Returns 768
  /\ (Raises "remote code refused" = Returns 768
      \/ (exists e, Raises "remote code refused" = @Raises nat e)
         /\ Returns 768 = Returns 768).
Proof.
  apply (load_model_dimension nat (fun n => Returns n)
           (Raises "remote code refused") (Returns 768) 768).
  reflexivity.
Defined.
